(** * dataISP: password corpus ingestion and classification

    A shallow embedding of [files.py] (ingestion: [convert_and_combine]) and
    [process.py] ([check_rainbow_table], [strength_check] and the entry
    point), followed by the properties of the classification engine.

    Conventions.
    - A Python [str] is a list of Unicode code points ([N]); a Python
      [bytes] is a list of [byte].
    - Library calls whose result depends on the operating system
      ([os.listdir], [os.path.isfile], [open]) are fields of a [filesystem]
      record: the program is a function of what those calls answer.
    - The character predicates of [str] ([isupper], [isalnum], ...), which
      read the Unicode character database, are fields of the [PyUnicode]
      class.
    - Exceptions are values of [exn]; a statement that can raise lives in
      the state-and-exception monad [M]. *)

From Stdlib Require Import Arith NArith List String Ascii Bool Lia Permutation.
From Stdlib Require Import Strings.Byte.
Import ListNotations.

Local Open Scope string_scope.
Local Open Scope N_scope.
Local Open Scope list_scope.

(** ** Python values *)

Definition pystr := list N.
Definition pybytes := list byte.

Definition str_of_string (s : string) : pystr :=
  map N_of_ascii (list_ascii_of_string s).

Definition byte_of_N (n : N) : byte :=
  match Byte.of_N (n mod 256) with
  | Some b => b
  | None => x00
  end.

Definition bytes_of_string (s : string) : pybytes :=
  map byte_of_ascii (list_ascii_of_string s).

Definition pystr_eq_dec : forall a b : pystr, {a = b} + {a <> b} :=
  list_eq_dec N.eq_dec.

Definition pystr_eqb (a b : pystr) : bool :=
  if pystr_eq_dec a b then true else false.

Definition bytes_eq_dec : forall a b : pybytes, {a = b} + {a <> b} :=
  list_eq_dec Byte.byte_eq_dec.

Definition bytes_eqb (a b : pybytes) : bool :=
  if bytes_eq_dec a b then true else false.

(** ** [hashlib.new('md4', data).digest()]

    hashlib hands the call to OpenSSL's MD4, the algorithm of RFC 1320; the
    model is of an installation whose OpenSSL provides it.
    Words are 32-bit values held in [N]; every addition is reduced modulo
    [2^32] and the complement is taken inside the 32 bits. *)

Module MD4.

Definition mask32 : N := 0xFFFFFFFF.
Definition add32 (x y : N) : N := N.land (x + y) mask32.
Definition not32 (x : N) : N := N.lxor (N.land x mask32) mask32.
Definition rotl32 (x s : N) : N :=
  N.land (N.lor (N.shiftl x s) (N.shiftr x (32 - s))) mask32.

Definition F (x y z : N) : N := N.lor (N.land x y) (N.land (not32 x) z).
Definition G (x y z : N) : N :=
  N.lor (N.lor (N.land x y) (N.land x z)) (N.land y z).
Definition H (x y z : N) : N := N.lxor (N.lxor x y) z.

(** Message padding: one [0x80] byte, zero bytes up to 56 modulo 64, then
    the bit length as a 64-bit little-endian integer. *)
Definition le_bytes (width : nat) (n : N) : pybytes :=
  map (fun i => byte_of_N (N.shiftr n (8 * N.of_nat i))) (seq 0 width).

Definition pad_zeros (len : N) : nat :=
  N.to_nat ((119 - len mod 64) mod 64).

Definition pad (msg : pybytes) : pybytes :=
  let len := N.of_nat (List.length msg) in
  msg ++ x80 :: repeat x00 (pad_zeros len) ++ le_bytes 8 (8 * len).

Fixpoint le_word (bs : pybytes) : N :=
  match bs with
  | [] => 0
  | b :: rest => Byte.to_N b + 256 * le_word rest
  end.

(** Cuts a list into pieces of [n] elements; [fuel] bounds the number of
    pieces and is given as the length of the list. *)
Fixpoint chunks {A} (fuel n : nat) (l : list A) : list (list A) :=
  match fuel, l with
  | O, _ | _, [] => []
  | S fuel', _ => firstn n l :: chunks fuel' n (skipn n l)
  end.

Definition words_of_block (block : pybytes) : list N :=
  map le_word (chunks 16 4 block).

Definition regs : Type := N * N * N * N.

(** One operation [a = (a + f(b,c,d) + X[k] + t) <<< s]; the registers are
    then renamed so that the next operation again writes the first. *)
Definition op (f : N -> N -> N -> N) (t : N) (X : list N)
    (r : regs) (ks : N * N) : regs :=
  let '(a, b, c, d) := r in
  let '(k, s) := ks in
  let a' := rotl32 (add32 (add32 (add32 a (f b c d)) (nth (N.to_nat k) X 0)) t) s in
  (d, a', b, c).

Definition round1 : list (N * N) :=
  [ (0, 3); (1, 7); (2, 11); (3, 19); (4, 3); (5, 7); (6, 11); (7, 19);
    (8, 3); (9, 7); (10, 11); (11, 19); (12, 3); (13, 7); (14, 11);
    (15, 19) ].

Definition round2 : list (N * N) :=
  [ (0, 3); (4, 5); (8, 9); (12, 13); (1, 3); (5, 5); (9, 9); (13, 13);
    (2, 3); (6, 5); (10, 9); (14, 13); (3, 3); (7, 5); (11, 9);
    (15, 13) ].

Definition round3 : list (N * N) :=
  [ (0, 3); (8, 9); (4, 11); (12, 15); (2, 3); (10, 9); (6, 11); (14, 15);
    (1, 3); (9, 9); (5, 11); (13, 15); (3, 3); (11, 9); (7, 11);
    (15, 15) ].

Definition compress (r : regs) (block : pybytes) : regs :=
  let X := words_of_block block in
  let r1 := fold_left (op F 0 X) round1 r in
  let r2 := fold_left (op G 0x5A827999 X) round2 r1 in
  let '(a, b, c, d) := fold_left (op H 0x6ED9EBA1 X) round3 r2 in
  let '(a0, b0, c0, d0) := r in
  (add32 a0 a, add32 b0 b, add32 c0 c, add32 d0 d).

Definition init : regs := (0x67452301, 0xEFCDAB89, 0x98BADCFE, 0x10325476).

Definition digest (msg : pybytes) : pybytes :=
  let padded := pad msg in
  let '(a, b, c, d) :=
    fold_left compress (chunks (List.length padded) 64 padded) init in
  le_bytes 4 a ++ le_bytes 4 b ++ le_bytes 4 c ++ le_bytes 4 d.

End MD4.

(** [bytes.hex()] as used by [hexdigest]: two lowercase digits per byte. *)
Definition hex_digit_lower (n : N) : N :=
  if n <? 10 then 48 + n else 87 + n.

Definition hexdigest (digest : pybytes) : pystr :=
  flat_map (fun b => let n := Byte.to_N b in
                     [hex_digit_lower (n / 16); hex_digit_lower (n mod 16)])
           digest.


(** ** Exceptions

    The exceptions the modelled calls raise; all of them derive from
    Python's [Exception]. [UnicodeEncodeError] and [UnicodeDecodeError]
    derive from [ValueError], [FileNotFoundError] and [PermissionError]
    from [OSError]. *)
Inductive exn : Type :=
| FileNotFoundError
| PermissionError
| OSError
| UnicodeEncodeError
| UnicodeDecodeError
| ValueError (msg : string).

Definition is_FileNotFoundError (e : exn) : bool :=
  match e with FileNotFoundError => true | _ => false end.

Definition is_ValueError (e : exn) : bool :=
  match e with
  | ValueError _ | UnicodeEncodeError | UnicodeDecodeError => true
  | _ => false
  end.

Inductive outcome (A : Type) : Type :=
| Ok (a : A)
| Raise (e : exn).
Arguments Ok {A} a.
Arguments Raise {A} e.

(** A statement run in a state [S]: it returns or raises, and in both cases
    leaves a state behind (a Python exception does not undo mutations). *)
Definition M (S A : Type) : Type := S -> outcome A * S.

Definition ret {S A} (a : A) : M S A := fun s => (Ok a, s).

Definition bind {S A B} (m : M S A) (k : A -> M S B) : M S B :=
  fun s => match m s with
           | (Ok a, s') => k a s'
           | (Raise e, s') => (Raise e, s')
           end.

Definition lift {S A} (o : outcome A) : M S A := fun s => (o, s).

Notation "x <- m ;; k" := (bind m (fun x => k))
  (at level 61, m at next level, right associativity).
Notation "m ;;; k" := (bind m (fun _ => k))
  (at level 61, right associativity).

(** [for x in xs: body x]; an exception raised by an iteration ends the
    loop. *)
Fixpoint for_ {S A} (xs : list A) (body : A -> M S unit) : M S unit :=
  match xs with
  | [] => ret tt
  | x :: rest => body x ;;; for_ rest body
  end.

(** ** The Unicode database

    The character predicates of [str] read CPython's Unicode tables. The
    program is modelled over any such tables. *)

Class PyUnicode : Type := {
  isupper : N -> bool;
  islower : N -> bool;
  isdigit : N -> bool;
  isalnum : N -> bool
}.

(** The tables restricted to ASCII: on code points below 128 these are
    CPython's answers; above, no character is a letter or a digit. *)
Definition in_range (lo hi c : N) : bool := (lo <=? c) && (c <=? hi).

#[export] Instance Ascii_unicode : PyUnicode := {|
  isupper := in_range 65 90;
  islower := in_range 97 122;
  isdigit := in_range 48 57;
  isalnum := fun c => in_range 65 90 c || in_range 97 122 c || in_range 48 57 c
|}.

(** [str.upper()] on text of ASCII characters, which is all the program
    applies it to ([hexdigest] returns the characters 0-9 and a-f): the
    letters a-z move to A-Z and every other character stays. *)
Definition upper (s : pystr) : pystr :=
  map (fun c => if in_range 97 122 c then c - 32 else c) s.

(** ** Codecs *)

Definition is_surrogate (c : N) : bool := in_range 0xD800 0xDFFF c.

(** A code point [str.encode] accepts: a Unicode scalar value. *)
Definition encodable_cp (c : N) : bool :=
  negb (is_surrogate c) && (c <=? 0x10FFFF).

Definition encodable (s : pystr) : bool := forallb encodable_cp s.

Definition le16 (u : N) : pybytes := [byte_of_N u; byte_of_N (u / 256)].

(** The UTF-16 code units of a scalar value. *)
Definition utf16_units (c : N) : list N :=
  if c <? 0x10000 then [c]
  else let c' := c - 0x10000 in
       [0xD800 + c' / 1024; 0xDC00 + c' mod 1024].

(** [s.encode('utf-16le')] *)
Fixpoint encode_utf16le (s : pystr) : outcome pybytes :=
  match s with
  | [] => Ok []
  | c :: rest =>
      if encodable_cp c then
        match encode_utf16le rest with
        | Ok bs => Ok (flat_map le16 (utf16_units c) ++ bs)
        | Raise e => Raise e
        end
      else Raise UnicodeEncodeError
  end.

Definition utf8_bytes (c : N) : pybytes :=
  if c <? 0x80 then [byte_of_N c]
  else if c <? 0x800 then
    [byte_of_N (0xC0 + c / 64); byte_of_N (0x80 + c mod 64)]
  else if c <? 0x10000 then
    [byte_of_N (0xE0 + c / 4096); byte_of_N (0x80 + (c / 64) mod 64);
     byte_of_N (0x80 + c mod 64)]
  else
    [byte_of_N (0xF0 + c / 262144); byte_of_N (0x80 + (c / 4096) mod 64);
     byte_of_N (0x80 + (c / 64) mod 64); byte_of_N (0x80 + c mod 64)].

(** [s.encode('utf-8')] *)
Fixpoint encode_utf8 (s : pystr) : outcome pybytes :=
  match s with
  | [] => Ok []
  | c :: rest =>
      if encodable_cp c then
        match encode_utf8 rest with
        | Ok bs => Ok (utf8_bytes c ++ bs)
        | Raise e => Raise e
        end
      else Raise UnicodeEncodeError
  end.

(** ** The digest of a credential

    [hashlib.new('md4', pwd.encode('utf-16le')).hexdigest().upper()
       .encode('utf-8')] (process.py, line 50). *)
Definition ntlm_hash (pwd : pystr) : outcome pybytes :=
  match encode_utf16le pwd with
  | Ok data => encode_utf8 (upper (hexdigest (MD4.digest data)))
  | Raise e => Raise e
  end.

(** ** Lines and whitespace *)

Fixpoint dropwhile {A} (p : A -> bool) (l : list A) : list A :=
  match l with
  | [] => []
  | x :: rest => if p x then dropwhile p rest else l
  end.

Fixpoint takewhile {A} (p : A -> bool) (l : list A) : list A :=
  match l with
  | [] => []
  | x :: rest => if p x then x :: takewhile p rest else []
  end.

(** [strip()] with no argument, for the whitespace predicate [sp]. *)
Definition strip_with {A} (sp : A -> bool) (l : list A) : list A :=
  rev (dropwhile sp (rev (dropwhile sp l))).

(** Whitespace of [bytes.strip()]: space, tab, newline, return, vertical
    tab and form feed. *)
Definition bytes_isspace (b : byte) : bool :=
  match b with
  | x20 | x09 | x0a | x0d | x0b | x0c => true
  | _ => false
  end.

Definition bytes_strip : pybytes -> pybytes := strip_with bytes_isspace.

(** Iterating a file opened in binary mode: each line runs up to and
    including its ["\n"]; a last line without one is yielded as it is. *)
Fixpoint iter_lines_from (cur : pybytes) (content : pybytes) : list pybytes :=
  match content with
  | [] => match cur with [] => [] | _ => [cur] end
  | b :: rest =>
      if Byte.eqb b x0a then (cur ++ [b]) :: iter_lines_from [] rest
      else iter_lines_from (cur ++ [b]) rest
  end.

Definition iter_lines : pybytes -> list pybytes := iter_lines_from [].

(** Whitespace of [str.strip()] (CPython's [_PyUnicode_IsWhitespace]). *)
Definition str_isspace (c : N) : bool :=
  in_range 0x09 0x0D c || in_range 0x1C 0x20 c || (c =? 0x85) || (c =? 0xA0)
  || (c =? 0x1680) || in_range 0x2000 0x200A c || (c =? 0x2028)
  || (c =? 0x2029) || (c =? 0x202F) || (c =? 0x205F) || (c =? 0x3000).

Definition str_strip : pystr -> pystr := strip_with str_isspace.

(** Line boundaries of [str.splitlines()] (CPython's
    [_PyUnicode_IsLinebreak]); ["\r\n"] counts as one boundary. *)
Definition is_linebreak (c : N) : bool :=
  in_range 0x0A 0x0D c || in_range 0x1C 0x1E c || (c =? 0x85)
  || (c =? 0x2028) || (c =? 0x2029).

Fixpoint splitlines_from (cur : pystr) (text : pystr) : list pystr :=
  match text with
  | [] => match cur with [] => [] | _ => [cur] end
  | c :: rest =>
      if is_linebreak c then
        cur :: match rest with
               | c' :: rest' =>
                   if (c =? 0x0D) && (c' =? 0x0A) then splitlines_from [] rest'
                   else splitlines_from [] rest
               | [] => splitlines_from [] rest
               end
      else splitlines_from (cur ++ [c]) rest
  end.

Definition splitlines : pystr -> list pystr := splitlines_from [].

(** [sep.join(parts)] *)
Fixpoint join (sep : pystr) (parts : list pystr) : pystr :=
  match parts with
  | [] => []
  | [x] => x
  | x :: rest => x ++ sep ++ join sep rest
  end.

(** [file.readlines()] of a file opened in text mode: ["\r\n"], ["\r"] and
    ["\n"] all end a line and are handed over as ["\n"]. *)
Fixpoint readlines_from (cur : pystr) (text : pystr) : list pystr :=
  match text with
  | [] => match cur with [] => [] | _ => [cur] end
  | c :: rest =>
      if c =? 0x0A then (cur ++ [0x0A]) :: readlines_from [] rest
      else if c =? 0x0D then
        (cur ++ [0x0A]) :: match rest with
                           | c' :: rest' =>
                               if c' =? 0x0A then readlines_from [] rest'
                               else readlines_from [] rest
                           | [] => readlines_from [] rest
                           end
      else readlines_from (cur ++ [c]) rest
  end.

Definition readlines : pystr -> list pystr := readlines_from [].

(** ** Paths ([posixpath]) *)

Definition sep : ascii := "/"%char.

Definition startswith_sep (p : string) : bool :=
  match p with
  | String c _ => Ascii.eqb c sep
  | EmptyString => false
  end.

Fixpoint endswith_sep (p : string) : bool :=
  match p with
  | EmptyString => false
  | String c EmptyString => Ascii.eqb c sep
  | String _ rest => endswith_sep rest
  end.

(** [os.path.join(a, b)] *)
Definition path_join (a b : string) : string :=
  if startswith_sep b then b
  else if (String.eqb a "") || endswith_sep a then (a ++ b)%string
  else (a ++ String sep b)%string.

(** [os.path.basename(p)]: what follows the last separator. *)
Fixpoint basename_from (acc p : string) : string :=
  match p with
  | EmptyString => acc
  | String c rest =>
      if Ascii.eqb c sep then basename_from EmptyString rest
      else basename_from (acc ++ String c EmptyString)%string rest
  end.

Definition basename : string -> string := basename_from EmptyString.

(** ** Dictionaries

    A [dict] with [str] keys keeps its items in insertion order; assigning
    to a key that is present replaces the value where it stands. *)
Definition dict (V : Type) := list (pystr * V).

Fixpoint dict_get {V} (k : pystr) (d : dict V) : option V :=
  match d with
  | [] => None
  | (k', v) :: rest => if pystr_eqb k k' then Some v else dict_get k rest
  end.

Fixpoint dict_set {V} (k : pystr) (v : V) (d : dict V) : dict V :=
  match d with
  | [] => [(k, v)]
  | (k', v') :: rest =>
      if pystr_eqb k k' then (k', v) :: rest else (k', v') :: dict_set k v rest
  end.

Definition keys {V} (d : dict V) : list pystr := map fst d.

(** ** The operating system *)

Record filesystem : Type := {
  (** [os.listdir(dir)], in the order the system returns the names *)
  listdir : string -> outcome (list string);
  (** [os.path.isfile(path)] *)
  isfile : string -> bool;
  (** [open(path, "rb")] read to its end *)
  read_bytes : string -> outcome pybytes;
  (** [open(path, "r", encoding="utf-8")] read to its end and decoded *)
  read_text : string -> outcome pystr;
  (** [open(path, "r", encoding="utf-8", errors="replace").read()] *)
  read_text_replace : string -> outcome pystr;
  (** [list(csv.reader(file))] on that same kind of file *)
  read_csv : string -> outcome (list (list pystr));
  (** [pd.read_excel(path).to_csv(index=False, header=True, sep=',')] *)
  read_excel_as_csv : string -> outcome pystr;
  (** [open(path, "w", encoding="utf-8", errors="replace")] *)
  open_w : string -> outcome unit
}.

Inductive message : Type :=
| RainbowDirNotFound (dir : string)
| RainbowError (e : exn)
| PasswordsFileNotFound
| PasswordsError (e : exn).

Inductive event : Type :=
| Listdir (dir : string)
| Open (path : string)
| LogError (m : message).

(** ** process.py *)

Section Process.
Variable fs : filesystem.

(** The state of [check_rainbow_table]'s body: its local dictionary and
    the trace of system calls. *)
Definition scan_state : Type := dict string * list event.

Definition os_listdir (dir : string) : M scan_state (list string) :=
  fun '(d, tr) => (listdir fs dir, (d, tr ++ [Listdir dir])).

Definition open_rb (path : string) : M scan_state pybytes :=
  fun '(d, tr) => (read_bytes fs path, (d, tr ++ [Open path])).

Definition setitem (k : pystr) (v : string) : M scan_state unit :=
  fun '(d, tr) => (Ok tt, (dict_set k v d, tr)).

Definition mem (x : pybytes) (set : list pybytes) : bool :=
  existsb (bytes_eqb x) set.

(** Lines 49-52: the scan of one opened table. *)
Definition scan_passwords (passwords : list pystr) (file_path : string)
    (precomputed_hashes : list pybytes) : M scan_state unit :=
  for_ passwords (fun pwd =>
    ntlm_hash <- lift (ntlm_hash pwd) ;;
    if mem ntlm_hash precomputed_hashes
    then setitem pwd (basename file_path)
    else ret tt).

(** Lines 45-52: the body of the [try]. *)
Definition rainbow_body (passwords : list pystr) (rainbow_directory : string)
    : M scan_state unit :=
  names <- os_listdir rainbow_directory ;;
  let rainbow_files :=
    filter (isfile fs)
           (map (fun file_name => path_join rainbow_directory file_name)
                names) in
  for_ rainbow_files (fun file_path =>
    content <- open_rb file_path ;;
    let precomputed_hashes := map bytes_strip (iter_lines content) in
    scan_passwords passwords file_path precomputed_hashes).

(** Lines 41-57. Both handlers log and fall through to the [return]. *)
Definition check_rainbow_table (passwords : list pystr)
    (rainbow_directory : string) : M (list event) (dict string) :=
  fun tr =>
    match rainbow_body passwords rainbow_directory ([], tr) with
    | (Ok _, (cracked_passwords, tr')) => (Ok cracked_passwords, tr')
    | (Raise e, (cracked_passwords, tr')) =>
        if is_FileNotFoundError e
        then (Ok cracked_passwords,
              tr' ++ [LogError (RainbowDirNotFound rainbow_directory)])
        else (Ok cracked_passwords, tr' ++ [LogError (RainbowError e)])
    end.

Context `{PyUnicode}.

(** Lines 60-72. *)
Definition strength_check (password : pystr) : string :=
  if Nat.ltb (List.length password) 8 then "Weak"
  else
    let has_upper := existsb isupper password in
    let has_lower := existsb islower password in
    let has_digit := existsb isdigit password in
    let has_special := existsb (fun c => negb (isalnum c)) password in
    if has_upper && has_lower && has_digit && has_special then "Strong"
    else if (has_upper || has_lower) && (has_digit || has_special)
    then "Medium"
    else "Weak".

(** What [analyze_passwords] derives from the classification engine and
    the strength heuristic (lines 164 and 186). Its length statistics,
    dictionary check, plots and report file are not part of the model. *)
Record analysis : Type := {
  cracked : dict string;
  strengths : list string
}.

Definition analyze_passwords (passwords : list pystr)
    : M (list event) analysis :=
  cracked <- check_rainbow_table passwords "rainbow" ;;
  ret {| cracked := cracked; strengths := map strength_check passwords |}.

Definition open_text (path : string) : M (list event) pystr :=
  fun tr => (read_text fs path, tr ++ [Open path]).

Definition nonempty {A} (l : list A) : bool :=
  match l with [] => false | _ => true end.

(** Line 209. *)
Definition passwords_of_text (text : pystr) : list pystr :=
  map str_strip (filter (fun line => nonempty (str_strip line))
                        (readlines text)).

Definition no_passwords : string := "No passwords found in the file.".

(** Lines 207-211: the body of the entry point's [try]. *)
Definition main_try : M (list event) (list pystr) :=
  text <- open_text "combined_output.txt" ;;
  let passwords := passwords_of_text text in
  if nonempty passwords then ret passwords
  else lift (Raise (ValueError no_passwords)).

(** Lines 204-217. [None] is a run that ended in one of the two handlers;
    an exception that neither handler names leaves the program. *)
Definition main : M (list event) (option analysis) :=
  fun tr =>
    match main_try tr with
    | (Raise e, tr') =>
        if is_FileNotFoundError e
        then (Ok None, tr' ++ [LogError PasswordsFileNotFound])
        else if is_ValueError e
        then (Ok None, tr' ++ [LogError (PasswordsError e)])
        else (Raise e, tr')
    | (Ok passwords, tr') =>
        match analyze_passwords passwords tr' with
        | (Ok a, tr'') => (Ok (Some a), tr'')
        | (Raise e, tr'') => (Raise e, tr'')
        end
    end.

End Process.

(** ** files.py *)

Definition endswith (s suffix : string) : bool :=
  let n := String.length s in
  let m := String.length suffix in
  Nat.leb m n && String.eqb (substring (n - m)%nat m s) suffix.

Definition comma_space : pystr := [44; 32].
Definition newline : pystr := [10].

Section Ingestion.
Variable fs : filesystem.

(** [list(set(passwords))]: the order in which a [set] of strings is
    enumerated is not fixed by the language. The program is modelled over
    any enumeration that lists each member once. *)
Variable list_set : list pystr -> list pystr.
Hypothesis list_set_NoDup : forall l, NoDup (list_set l).
Hypothesis list_set_In : forall l x, In x (list_set l) <-> In x l.

(** Lines 23-49: what one file adds to [combined_content]; an exception
    is reported and the file adds nothing. *)
Definition convert_file (file_name file_path : string) : list pystr :=
  let attempt :=
    if endswith file_name ".txt" then
      match read_text_replace fs file_path with
      | Ok content => Ok [content]
      | Raise e => Raise e
      end
    else if endswith file_name ".csv" then
      match read_csv fs file_path with
      | Ok csv_content =>
          Ok [join newline (map (join comma_space) csv_content)]
      | Raise e => Raise e
      end
    else if endswith file_name ".xlsx" then
      match read_excel_as_csv fs file_path with
      | Ok content => Ok [content]
      | Raise e => Raise e
      end
    else Ok [] in
  match attempt with
  | Ok added => added
  | Raise _ => []
  end.

(** Lines 14-49. *)
Definition combine_content (input_folder : string) (names : list string)
    : list pystr :=
  flat_map (fun file_name =>
              let file_path := path_join input_folder file_name in
              if isfile fs file_path then convert_file file_name file_path
              else [])
           names.

(** Line 56. *)
Definition clean_lines (combined_text : pystr) : list pystr :=
  map str_strip (filter (fun line => nonempty (str_strip line))
                        (splitlines combined_text)).

(** Lines 5-65. The result is the text handed to [output.write], or [None]
    when nothing was combined and no file is written. *)
Definition convert_and_combine (input_folder output_file : string)
    : outcome (option pystr) :=
  match listdir fs input_folder with
  | Raise e => Raise e
  | Ok names =>
      let combined_content := combine_content input_folder names in
      if nonempty combined_content then
        let combined_text := join newline combined_content in
        let passwords := clean_lines combined_text in
        let unique_passwords := list_set passwords in
        match open_w fs output_file with
        | Raise e => Raise e
        | Ok _ => Ok (Some (join newline unique_passwords))
        end
      else Ok None
  end.

End Ingestion.

(** ** Concrete file systems for the scenarios *)

Module Scenario.

Definition lookup {V} (path : string) (files : list (string * V)) : option V :=
  match find (fun f => String.eqb path (fst f)) files with
  | Some f => Some (snd f)
  | None => None
  end.

Definition or_missing {A} (o : option (outcome A)) : outcome A :=
  match o with
  | Some r => r
  | None => Raise FileNotFoundError
  end.

(** A system whose directory [dir] lists [tables] in that order, each name
    with what opening it answers, and which holds [texts] as text files. *)
Definition make_fs (dir : string) (tables : list (string * outcome pybytes))
    (texts : list (string * pystr)) : filesystem :=
  let paths := map (fun t => (path_join dir (fst t), snd t)) tables in
  {| listdir := fun d =>
       if String.eqb d dir then Ok (map fst tables)
       else Raise FileNotFoundError;
     isfile := fun p =>
       match lookup p paths, lookup p texts with
       | None, None => false
       | _, _ => true
       end;
     read_bytes := fun p => or_missing (lookup p paths);
     read_text := fun p => or_missing (option_map Ok (lookup p texts));
     read_text_replace := fun p => or_missing (option_map Ok (lookup p texts));
     read_csv := fun _ => Raise FileNotFoundError;
     read_excel_as_csv := fun _ => Raise FileNotFoundError;
     open_w := fun _ => Ok tt |}.

Definition lines (ls : list string) : pybytes :=
  flat_map (fun l => bytes_of_string l ++ [x0a]) ls.

Definition password : pystr := str_of_string "password".
Definition troubador : pystr := str_of_string "Tr0ub4dor&3".
Definition abc123 : pystr := str_of_string "abc123".
Definition lone_surrogate : pystr := [0xD800].

Definition hash_password : string := "8846F7EAEE8FB117AD06BDD830B7586C".
Definition hash_abc123 : string := "F9E37E83B83C47A93C2F09F66408631B".

End Scenario.


(** ** Notions used to state the properties *)

(** The digest transform in the words of the design: the 16-bit code units
    of the credential, each written low byte first, through MD4, written as
    uppercase hexadecimal digits. *)
Definition HEX : pybytes := bytes_of_string "0123456789ABCDEF".

Definition hex_upper (digest : pybytes) : pybytes :=
  flat_map (fun b => let n := Byte.to_N b in
                     [nth (N.to_nat (n / 16)) HEX x00;
                      nth (N.to_nat (n mod 16)) HEX x00])
           digest.

Definition utf16le (s : pystr) : pybytes :=
  flat_map le16 (flat_map utf16_units s).

Definition digest_transform (credential : pystr) : pybytes :=
  hex_upper (MD4.digest (utf16le credential)).

(** The membership set of a table, and whether it holds the digest of a
    credential. *)
Definition table_hashes (content : pybytes) : list pybytes :=
  map bytes_strip (iter_lines content).

Definition contains (content : pybytes) (pwd : pystr) : bool :=
  match ntlm_hash pwd with
  | Ok h => mem h (table_hashes content)
  | Raise _ => false
  end.

(** A file name as a directory lists it holds no separator. *)
Fixpoint has_sep (name : string) : bool :=
  match name with
  | EmptyString => false
  | String c rest => Ascii.eqb c sep || has_sep rest
  end.

(** The table sources of a run, in processing order. *)
Definition rainbow_files (fs : filesystem) (dir : string)
    (names : list string) : list string :=
  filter (isfile fs) (map (path_join dir) names).

(** The tables that open, up to the first that does not, with their
    contents. *)
Fixpoint readable_prefix (fs : filesystem) (files : list string)
    : list (string * pybytes) :=
  match files with
  | [] => []
  | p :: rest =>
      match read_bytes fs p with
      | Ok content => (p, content) :: readable_prefix fs rest
      | Raise _ => []
      end
  end.

(** Every table with the content it opens to, skipping those that do not
    open. *)
Fixpoint readable_tables (fs : filesystem) (files : list string)
    : list (string * pybytes) :=
  match files with
  | [] => []
  | p :: rest =>
      match read_bytes fs p with
      | Ok content => (p, content) :: readable_tables fs rest
      | Raise _ => readable_tables fs rest
      end
  end.

(** The tables a run tries to open: those that open and the first that
    does not. *)
Fixpoint attempted (fs : filesystem) (files : list string) : list string :=
  match files with
  | [] => []
  | p :: rest =>
      p :: match read_bytes fs p with
           | Ok _ => attempted fs rest
           | Raise _ => []
           end
  end.

Fixpoint first_failure (fs : filesystem) (files : list string)
    : outcome unit :=
  match files with
  | [] => Ok tt
  | p :: rest =>
      match read_bytes fs p with
      | Ok _ => first_failure fs rest
      | Raise e => Raise e
      end
  end.

(** The matches one table adds, and the result of scanning a sequence of
    tables one after the other, when nothing raises. *)
Definition record_matches (passwords : list pystr) (d : dict string)
    (table : string * pybytes) : dict string :=
  fold_left (fun d pwd =>
               if contains (snd table) pwd
               then dict_set pwd (basename (fst table)) d else d)
            passwords d.

Definition classify (passwords : list pystr)
    (tables : list (string * pybytes)) : dict string :=
  fold_left (record_matches passwords) tables [].

(** One iteration of the loop over the tables (lines 47-52). *)
Definition scan_file (fs : filesystem) (passwords : list pystr)
    (file_path : string) : M scan_state unit :=
  content <- open_rb fs file_path ;;
  scan_passwords passwords file_path (map bytes_strip (iter_lines content)).

Definition result (fs : filesystem) (passwords : list pystr) (dir : string)
    : outcome (dict string) :=
  fst (check_rainbow_table fs passwords dir []).

Definition is_open (e : event) : bool :=
  match e with Open _ => true | _ => false end.

Definition opened (tr : list event) : list event := filter is_open tr.

(** A string without a line boundary, and a list whose first element is
    not one that [strip] removes. *)
Definition break_free (s : pystr) : Prop :=
  Forall (fun c => is_linebreak c = false) s.

Definition starts_clean {A} (sp : A -> bool) (l : list A) : Prop :=
  match l with
  | [] => True
  | x :: _ => sp x = false
  end.

(** ** Policies a run could follow, as the design words them *)

(** Tie-break "first wins": when the digest of a credential is in two or
    more processed tables, the credential is attributed to the first. *)
Definition first_table_wins : Prop :=
  forall fs passwords dir names pwd before t c after,
    listdir fs dir = Ok names ->
    forallb encodable passwords = true ->
    In pwd passwords ->
    readable_prefix fs (rainbow_files fs dir names)
      = before ++ (t, c) :: after ->
    (forall t', In t' before -> contains (snd t') pwd = false) ->
    contains c pwd = true ->
    (exists t', In t' after /\ contains (snd t') pwd = true) ->
    exists d, result fs passwords dir = Ok d /\
              dict_get pwd d = Some (basename t).

(** Domain of the result: exactly the credentials whose digest is in a
    successfully processed table, whichever of the tables that open are
    counted as successfully processed. *)
Definition domain_is_membership : Prop :=
  forall fs passwords dir names d,
    listdir fs dir = Ok names ->
    result fs passwords dir = Ok d ->
    incl (keys d) passwords /\
    exists processed,
      incl processed (readable_tables fs (rainbow_files fs dir names)) /\
      forall pwd, In pwd passwords ->
        (In pwd (keys d) <->
         exists t, In t processed /\ contains (snd t) pwd = true).

(** Processing order fixed by the program: the result does not depend on
    the order in which the system enumerates the directory. *)
Definition listing_order_irrelevant : Prop :=
  forall fs1 fs2 passwords dir names1 names2,
    listdir fs1 dir = Ok names1 ->
    listdir fs2 dir = Ok names2 ->
    Permutation names1 names2 ->
    (forall p, isfile fs1 p = isfile fs2 p) ->
    (forall p, read_bytes fs1 p = read_bytes fs2 p) ->
    result fs1 passwords dir = result fs2 passwords dir.

(** A table that does not open is skipped and the others are scanned. *)
Definition unavailable_table_skipped : Prop :=
  forall fs passwords dir names before t e after,
    listdir fs dir = Ok names ->
    forallb encodable passwords = true ->
    rainbow_files fs dir names = before ++ t :: after ->
    read_bytes fs t = Raise e ->
    (forall p, In p (before ++ after) -> exists c, read_bytes fs p = Ok c) ->
    result fs passwords dir
      = Ok (classify passwords (readable_tables fs (before ++ after))).

(** A credential that cannot be encoded is skipped and the others are
    classified as if it were not in the list. *)
Definition unencodable_credential_skipped : Prop :=
  forall fs passwords dir,
    result fs passwords dir = result fs (filter encodable passwords) dir.

(** ** The scenarios *)

Module Scenarios.
Import Scenario.

Definition table_password : pybytes := lines [hash_password].
Definition table_abc123 : pybytes := lines [hash_abc123].
Definition table_both : pybytes := lines [hash_password; hash_abc123].

Definition fs_t1 : filesystem :=
  make_fs "rainbow" [("t1.hash", Ok table_password)] [].

Definition fs_ab : filesystem :=
  make_fs "rainbow"
    [("a.hash", Ok table_abc123); ("b.hash", Ok table_abc123)] [].

(** The same directory on a system whose text files all read as empty. *)
Definition fs_ab_other : filesystem :=
  {| listdir := listdir fs_ab;
     isfile := isfile fs_ab;
     read_bytes := read_bytes fs_ab;
     read_text := fun _ => Ok [];
     read_text_replace := fun _ => Ok [];
     read_csv := fun _ => Ok [];
     read_excel_as_csv := fun _ => Raise OSError;
     open_w := fun _ => Raise PermissionError |}.

Definition fs_ba : filesystem :=
  make_fs "rainbow"
    [("b.hash", Ok table_abc123); ("a.hash", Ok table_abc123)] [].

Definition fs_missing : filesystem :=
  make_fs "rainbow"
    [("missing.hash", Raise FileNotFoundError);
     ("t1.hash", Ok table_password)] [].

Definition fs_both : filesystem :=
  make_fs "rainbow" [("t1.hash", Ok table_both)] [].

Definition fs_blank : filesystem :=
  make_fs "rainbow" [("t1.hash", Ok table_password)]
    [("combined_output.txt", str_of_string "   ")].

(** A folder with a text file, a table of two rows, a file of another
    kind and a sub-folder. *)
Definition fs_data : filesystem :=
  {| listdir := fun d =>
       if String.eqb d "data" then Ok ["a.txt"; "b.csv"; "notes.md"; "sub"]
       else Raise FileNotFoundError;
     isfile := fun p => negb (String.eqb p "data/sub");
     read_bytes := fun _ => Raise PermissionError;
     read_text := fun _ => Raise PermissionError;
     read_text_replace := fun p =>
       if String.eqb p "data/a.txt"
       then Ok (str_of_string " password " ++ [0x0D; 0x0A]
                ++ str_of_string "abc123" ++ [0x0A; 0x0A]
                ++ str_of_string "password")
       else Raise PermissionError;
     read_csv := fun p =>
       if String.eqb p "data/b.csv"
       then Ok [[str_of_string "abc123"];
                [str_of_string "x"; str_of_string "y"]]
       else Raise PermissionError;
     read_excel_as_csv := fun _ => Raise PermissionError;
     open_w := fun _ => Ok tt |}.

(** An enumeration of a set: the members in the order of their last
    occurrence. *)
Definition enumerate_set : list pystr -> list pystr := nodup pystr_eq_dec.

End Scenarios.

(** ** The remaining analysis steps of process.py *)

Section Dictionary.

(** [str.lower()], which reads the Unicode tables. *)
Variable lower : pystr -> pystr.
Variable fs : filesystem.

(** Lines 24-31. The set is held as the list of its members; the error
    message goes to the log, which is not part of this function's model. *)
Definition load_dictionary (file_path : string) : outcome (list pystr) :=
  match read_text fs file_path with
  | Ok text => Ok (map (fun line => lower (str_strip line)) (readlines text))
  | Raise e => if is_FileNotFoundError e then Ok [] else Raise e
  end.

(** Lines 33-39. *)
Definition check_predictable (passwords : list pystr)
    (dictionary_words : list pystr) : list pystr :=
  fold_left (fun predictable pwd =>
               if existsb (pystr_eqb (lower pwd)) dictionary_words
               then predictable ++ [pwd] else predictable)
            passwords [].

Definition dictionary_path : string := "/usr/share/dict/words".

(** Lines 88 and 156 of [analyze_passwords]. *)
Definition predictable_passwords (passwords : list pystr)
    : outcome (list pystr) :=
  match load_dictionary dictionary_path with
  | Ok dictionary_words => Ok (check_predictable passwords dictionary_words)
  | Raise e => Raise e
  end.

End Dictionary.

(** [str.lower()] on ASCII text. *)
Definition ascii_lower (s : pystr) : pystr :=
  map (fun c => if in_range 65 90 c then c + 32 else c) s.

(** Line 95 and the count written by line 114. *)
Definition lengths (passwords : list pystr) : list nat :=
  map (@List.length N) passwords.

Definition count_ge8 (passwords : list pystr) : nat :=
  List.length (filter (fun l => Nat.leb 8 l) (lengths passwords)).

(** [collections.Counter(items)] over strings: one entry per distinct
    item, in the order of first occurrence, with the number of
    occurrences. *)
Fixpoint counter_add (x : string) (c : list (string * nat))
    : list (string * nat) :=
  match c with
  | [] => [(x, 1%nat)]
  | (y, n) :: rest =>
      if String.eqb x y then (y, S n) :: rest else (y, n) :: counter_add x rest
  end.

Definition Counter (items : list string) : list (string * nat) :=
  fold_left (fun c x => counter_add x c) items [].

(** [c[x]] for a [Counter]: a missing item counts 0. *)
Fixpoint counter_get (x : string) (c : list (string * nat)) : nat :=
  match c with
  | [] => 0%nat
  | (y, n) :: rest => if String.eqb x y then n else counter_get x rest
  end.

(** Line 186. *)
Definition strength_counts `{PyUnicode} (passwords : list pystr)
    : list (string * nat) :=
  Counter (map strength_check passwords).

(** ** Further notions *)

(** The table a credential is attributed to when the tables are scanned in
    order and nothing raises: the last one that holds its digest. *)
Definition attribution (pwd : pystr) (tables : list (string * pybytes))
    : option string :=
  fold_left (fun acc t =>
               if contains (snd t) pwd then Some (basename (fst t)) else acc)
            tables None.

(** The order of the three ratings. *)
Definition rank (rating : string) : nat :=
  if String.eqb rating "Strong" then 2%nat
  else if String.eqb rating "Medium" then 1%nat
  else 0%nat.

(** A directory entry that adds nothing to [combined_content]: not a
    regular file, of another kind than the three converted, or one whose
    reading raises. *)
Definition ignored (fs : filesystem) (input_folder file_name : string)
    : bool :=
  let file_path := path_join input_folder file_name in
  negb (isfile fs file_path)
  || negb (nonempty (convert_file fs file_name file_path)).

(** A byte that is an uppercase hexadecimal digit, and a table line that,
    stripped, is 32 of them. *)
Definition is_HEX (b : byte) : bool := existsb (Byte.eqb b) HEX.

Definition well_formed_entry (line : pybytes) : bool :=
  Nat.eqb (List.length (bytes_strip line)) 32
  && forallb is_HEX (bytes_strip line).

(** Further file systems for the examples. *)
Module Examples.
Import Scenario.

(** A table in lowercase hexadecimal. *)
Definition table_lowercase : pybytes :=
  lines ["8846f7eaee8fb117ad06bdd830b7586c"].

(** A table whose line carries a leading space and ends in a carriage
    return and a newline. *)
Definition line_padded : pybytes :=
  [x20] ++ bytes_of_string hash_password ++ [x0d; x0a].

(** The directory of [Scenarios.fs_t1] with a sub-directory listed first. *)
Definition fs_t1_subdir : filesystem :=
  {| listdir := fun d =>
       if String.eqb d "rainbow" then Ok ["old"; "t1.hash"]
       else Raise FileNotFoundError;
     isfile := isfile Scenarios.fs_t1;
     read_bytes := read_bytes Scenarios.fs_t1;
     read_text := read_text Scenarios.fs_t1;
     read_text_replace := read_text_replace Scenarios.fs_t1;
     read_csv := read_csv Scenarios.fs_t1;
     read_excel_as_csv := read_excel_as_csv Scenarios.fs_t1;
     open_w := open_w Scenarios.fs_t1 |}.

(** Two tables with no credential in common, in the two orders. *)
Definition fs_pq : filesystem :=
  make_fs "rainbow"
    [("p.hash", Ok Scenarios.table_password);
     ("q.hash", Ok Scenarios.table_abc123)] [].

Definition fs_qp : filesystem :=
  make_fs "rainbow"
    [("q.hash", Ok Scenarios.table_abc123);
     ("p.hash", Ok Scenarios.table_password)] [].

End Examples.

(** A string without a line feed or a carriage return. *)
Definition newline_free (s : pystr) : Prop :=
  Forall (fun c => (c =? 0x0A) || (c =? 0x0D) = false) s.

Module MainExamples.
Import Scenario.

(** A credential file of two lines, the second with surrounding blanks and
    a carriage return before the newline. *)
Definition credentials_text : pystr :=
  str_of_string "password" ++ [0x0A]
  ++ str_of_string "  abc123 " ++ [0x0D; 0x0A].

Definition fs_main : filesystem :=
  make_fs "rainbow" [("t1.hash", Ok Scenarios.table_both)]
    [("combined_output.txt", credentials_text)].

End MainExamples.

Module IngestionExamples.

(** The folder of [Scenarios.fs_data] without its entry "notes.md". *)
Definition fs_data_less : filesystem :=
  {| listdir := fun d =>
       if String.eqb d "data" then Ok ["a.txt"; "b.csv"; "sub"]
       else Raise FileNotFoundError;
     isfile := isfile Scenarios.fs_data;
     read_bytes := read_bytes Scenarios.fs_data;
     read_text := read_text Scenarios.fs_data;
     read_text_replace := read_text_replace Scenarios.fs_data;
     read_csv := read_csv Scenarios.fs_data;
     read_excel_as_csv := read_excel_as_csv Scenarios.fs_data;
     open_w := open_w Scenarios.fs_data |}.

Definition written : pystr :=
  str_of_string "password" ++ newline ++ str_of_string "abc123" ++ newline
  ++ str_of_string "x, y".

(** A system with a word list of two words. *)
Definition fs_words : filesystem :=
  Scenario.make_fs "rainbow" []
    [(dictionary_path, str_of_string "Password" ++ [0x0A]
                       ++ str_of_string "hello" ++ [0x0A])].

End IngestionExamples.

Module ReingestExamples.

(** A folder that holds the output of a first ingestion as its one text
    file. *)
Definition fs_again : filesystem :=
  {| listdir := fun d =>
       if String.eqb d "again" then Ok ["combined_output.txt"]
       else Raise FileNotFoundError;
     isfile := fun _ => true;
     read_bytes := fun _ => Raise PermissionError;
     read_text := fun _ => Raise PermissionError;
     read_text_replace := fun p =>
       if String.eqb p "again/combined_output.txt"
       then Ok IngestionExamples.written
       else Raise PermissionError;
     read_csv := fun _ => Raise PermissionError;
     read_excel_as_csv := fun _ => Raise PermissionError;
     open_w := fun _ => Ok tt |}.

(** A system on which the credential file cannot be read. *)
Definition fs_denied : filesystem :=
  {| listdir := listdir Scenarios.fs_t1;
     isfile := isfile Scenarios.fs_t1;
     read_bytes := read_bytes Scenarios.fs_t1;
     read_text := fun _ => Raise PermissionError;
     read_text_replace := fun _ => Raise PermissionError;
     read_csv := fun _ => Raise PermissionError;
     read_excel_as_csv := fun _ => Raise PermissionError;
     open_w := fun _ => Ok tt |}.

End ReingestExamples.

(** * Properties *)

(** ** The digest transform *)

Lemma encode_utf16le_ok (s : pystr) :
  encodable s = true -> encode_utf16le s = Ok (utf16le s).
Proof.
  unfold utf16le.
  induction s as [|c s IH]; simpl; intros E; [reflexivity|].
  apply andb_prop in E as [Ec Es].
  rewrite Ec, (IH Es), flat_map_app. reflexivity.
Qed.

Lemma encode_utf16le_raise (s : pystr) :
  encodable s = false -> encode_utf16le s = Raise UnicodeEncodeError.
Proof.
  induction s as [|c s IH]; simpl; intros E; [discriminate|].
  destruct (encodable_cp c); simpl in E; [|reflexivity].
  rewrite (IH E). reflexivity.
Qed.

Lemma encode_utf8_ascii (c : N) (rest : pystr) :
  c < 128 ->
  encode_utf8 (c :: rest) =
  match encode_utf8 rest with
  | Ok bs => Ok (byte_of_N c :: bs)
  | Raise e => Raise e
  end.
Proof.
  intros Hc. simpl.
  assert (E : encodable_cp c = true).
  { unfold encodable_cp, is_surrogate, in_range.
    apply andb_true_intro; split.
    - apply negb_true_iff, andb_false_intro1, N.leb_gt. lia.
    - apply N.leb_le. lia. }
  rewrite E. unfold utf8_bytes.
  replace (c <? 128) with true by (symmetry; apply N.ltb_lt; lia).
  reflexivity.
Qed.

(** The two digits [hexdigest] writes for a byte, once through [upper],
    are ASCII and are the digits of the uppercase table. *)
Lemma hex_digits_of_byte (b : byte) :
  let n := Byte.to_N b in
  match upper (hexdigest [b]) with
  | [h; l] =>
      h < 128 /\ l < 128 /\
      byte_of_N h = nth (N.to_nat (n / 16)) HEX x00 /\
      byte_of_N l = nth (N.to_nat (n mod 16)) HEX x00
  | _ => False
  end.
Proof.
  destruct b; vm_compute; repeat split; reflexivity.
Qed.

Lemma encode_hexdigest (digest : pybytes) :
  encode_utf8 (upper (hexdigest digest)) = Ok (hex_upper digest).
Proof.
  induction digest as [|b digest IH]; [reflexivity|].
  pose proof (hex_digits_of_byte b) as Hb.
  change (hexdigest (b :: digest)) with (hexdigest [b] ++ hexdigest digest).
  change (hex_upper (b :: digest))
    with ([nth (N.to_nat (Byte.to_N b / 16)) HEX x00;
           nth (N.to_nat (Byte.to_N b mod 16)) HEX x00] ++ hex_upper digest).
  unfold upper in *. rewrite map_app.
  destruct (map _ (hexdigest [b])) as [|h [|l [|? ?]]]; try contradiction.
  destruct Hb as (Hh & Hl & Eh & El).
  change (([h; l] ++ ?r)) with (h :: l :: r).
  rewrite (encode_utf8_ascii h), (encode_utf8_ascii l) by assumption.
  rewrite IH, Eh, El. reflexivity.
Qed.

Lemma ntlm_hash_ok (pwd : pystr) :
  encodable pwd = true -> ntlm_hash pwd = Ok (digest_transform pwd).
Proof.
  intros E. unfold ntlm_hash, digest_transform.
  rewrite (encode_utf16le_ok _ E). apply encode_hexdigest.
Qed.

Lemma ntlm_hash_raise (pwd : pystr) :
  encodable pwd = false -> ntlm_hash pwd = Raise UnicodeEncodeError.
Proof.
  intros E. unfold ntlm_hash. rewrite (encode_utf16le_raise _ E). reflexivity.
Qed.

(** ** Table identifiers *)

Lemma bytes_eqb_eq (a b : pybytes) : bytes_eqb a b = true <-> a = b.
Proof.
  unfold bytes_eqb. destruct (bytes_eq_dec a b); split; congruence.
Qed.

(** A table holds the digest of a credential when one of its lines,
    stripped, is that digest. *)
Lemma contains_iff (content : pybytes) (pwd : pystr) :
  contains content pwd = true <->
  exists h line,
    ntlm_hash pwd = Ok h /\ In line (iter_lines content) /\
    bytes_strip line = h.
Proof.
  unfold contains, mem, table_hashes.
  destruct (ntlm_hash pwd) as [h|e].
  - rewrite existsb_exists. split.
    + intros (x & Hx & E). apply in_map_iff in Hx as (line & <- & Hin).
      apply bytes_eqb_eq in E. exists h, line. auto.
    + intros (h' & line & [= <-] & Hin & <-).
      exists (bytes_strip line). split; [now apply in_map|].
      now apply bytes_eqb_eq.
  - split; [discriminate | intros (? & ? & [=] & _)].
Qed.

Lemma basename_from_no_sep (name acc : string) :
  has_sep name = false -> basename_from acc name = (acc ++ name)%string.
Proof.
  revert acc. induction name as [|c name IH]; intros acc; simpl.
  - intros _. clear. induction acc as [|a acc IH]; simpl; congruence.
  - intros Hs. apply orb_false_elim in Hs as [Hc Hs]. rewrite Hc, IH by exact Hs.
    clear. induction acc as [|a acc IH]; simpl; congruence.
Qed.

Lemma basename_from_sep (a b acc : string) :
  basename_from acc (a ++ String sep b)
  = basename_from EmptyString b.
Proof.
  revert acc. induction a as [|c a IH]; intros acc; simpl.
  - reflexivity.
  - destruct (Ascii.eqb c sep); apply IH.
Qed.

Lemma basename_from_cons (c : ascii) (rest acc : string) :
  basename_from acc (String c rest) =
  if Ascii.eqb c sep then basename_from EmptyString rest
  else basename_from (acc ++ String c EmptyString)%string rest.
Proof. reflexivity. Qed.

Lemma basename_from_endswith (a name acc : string) :
  endswith_sep a = true -> has_sep name = false ->
  basename_from acc (a ++ name) = name.
Proof.
  intros Ha Hn. revert acc. induction a as [|c a IH]; intros acc.
  - discriminate.
  - destruct a as [|c' a].
    + simpl in *. rewrite Ha. now apply basename_from_no_sep.
    + change ((String c (String c' a) ++ name)%string)
        with (String c (String c' a ++ name)%string).
      rewrite basename_from_cons. destruct (Ascii.eqb c sep); now apply IH.
Qed.

(** The identifier stored for a table is the name under which the
    directory lists it. *)
Lemma basename_path_join (dir name : string) :
  has_sep name = false -> basename (path_join dir name) = name.
Proof.
  intros Hn. unfold basename, path_join.
  assert (Hs : startswith_sep name = false).
  { destruct name as [|c name]; [reflexivity|].
    simpl in *. now apply orb_false_elim in Hn as [-> _]. }
  rewrite Hs.
  destruct (String.eqb dir "") eqn:Hd.
  - apply String.eqb_eq in Hd. subst dir. simpl.
    now apply basename_from_no_sep.
  - simpl. destruct (endswith_sep dir) eqn:He.
    + now apply basename_from_endswith.
    + rewrite basename_from_sep. now apply basename_from_no_sep.
Qed.

(** ** Dictionaries *)

Lemma pystr_eqb_refl (k : pystr) : pystr_eqb k k = true.
Proof. unfold pystr_eqb. destruct (pystr_eq_dec k k); congruence. Qed.

Lemma pystr_eqb_eq (a b : pystr) : pystr_eqb a b = true <-> a = b.
Proof.
  unfold pystr_eqb. destruct (pystr_eq_dec a b); split; congruence.
Qed.

Lemma pystr_eqb_neq (a b : pystr) : pystr_eqb a b = false <-> a <> b.
Proof.
  unfold pystr_eqb. destruct (pystr_eq_dec a b); split; congruence.
Qed.

Lemma dict_get_set_same {V} (k : pystr) (v : V) (d : dict V) :
  dict_get k (dict_set k v d) = Some v.
Proof.
  induction d as [|[k' v'] d IH]; simpl.
  - now rewrite pystr_eqb_refl.
  - destruct (pystr_eqb k k') eqn:E; simpl; rewrite E; auto.
Qed.

Lemma dict_get_set_other {V} (k k' : pystr) (v : V) (d : dict V) :
  k <> k' -> dict_get k' (dict_set k v d) = dict_get k' d.
Proof.
  intros Hne. induction d as [|[k0 v0] d IH]; simpl.
  - apply not_eq_sym, pystr_eqb_neq in Hne. now rewrite Hne.
  - destruct (pystr_eqb k k0) eqn:E; simpl.
    + apply pystr_eqb_eq in E. subst k0.
      apply not_eq_sym, pystr_eqb_neq in Hne. now rewrite Hne.
    + now rewrite IH.
Qed.

Lemma keys_get {V} (k : pystr) (d : dict V) :
  In k (keys d) <-> exists v, dict_get k d = Some v.
Proof.
  induction d as [|[k' v'] d IH]; simpl.
  - split; [tauto | intros [v Hv]; discriminate].
  - destruct (pystr_eqb k k') eqn:E.
    + apply pystr_eqb_eq in E. split; eauto.
    + apply pystr_eqb_neq in E. rewrite <- IH.
      split; [intros [?|?]; congruence | tauto].
Qed.

Lemma keys_NoDup_set {V} (k : pystr) (v : V) (d : dict V) :
  NoDup (keys d) -> NoDup (keys (dict_set k v d)).
Proof.
  induction d as [|[k' v'] d IH]; simpl; intros ND.
  - constructor; [tauto | constructor].
  - destruct (pystr_eqb k k') eqn:E; simpl; [assumption|].
    inversion ND as [|? ? Hnotin ND']; subst. constructor; [|auto].
    intros Hin. apply keys_get in Hin as [w Hw].
    apply pystr_eqb_neq in E.
    rewrite dict_get_set_other in Hw by assumption.
    apply Hnotin, keys_get. eauto.
Qed.

(** ** What a scan without errors records *)

Lemma record_matches_cons (pwd : pystr) (passwords : list pystr)
    (d : dict string) (t : string * pybytes) :
  record_matches (pwd :: passwords) d t =
  record_matches passwords
    (if contains (snd t) pwd then dict_set pwd (basename (fst t)) d else d) t.
Proof. reflexivity. Qed.

Lemma get_record_matches (k : pystr) (passwords : list pystr)
    (d : dict string) (t : string * pybytes) :
  dict_get k (record_matches passwords d t) =
  if existsb (pystr_eqb k) passwords && contains (snd t) k
  then Some (basename (fst t)) else dict_get k d.
Proof.
  revert d. induction passwords as [|pwd ps IH]; intros d; [reflexivity|].
  rewrite record_matches_cons, IH. simpl existsb.
  destruct (pystr_eqb k pwd) eqn:E.
  - apply pystr_eqb_eq in E. subst pwd. simpl.
    destruct (contains (snd t) k); simpl.
    + rewrite dict_get_set_same. now destruct (existsb _ ps).
    + now rewrite andb_false_r.
  - simpl. destruct (existsb _ ps && contains (snd t) k); [reflexivity|].
    apply pystr_eqb_neq in E.
    destruct (contains (snd t) pwd); [|reflexivity].
    apply dict_get_set_other. congruence.
Qed.

Lemma existsb_pystr_In (k : pystr) (l : list pystr) :
  existsb (pystr_eqb k) l = true <-> In k l.
Proof.
  rewrite existsb_exists. split.
  - intros (x & Hx & E). apply pystr_eqb_eq in E. now subst.
  - intros Hin. exists k. split; [assumption | apply pystr_eqb_refl].
Qed.

Lemma get_scan_none (k : pystr) (passwords : list pystr)
    (tables : list (string * pybytes)) (d : dict string) :
  (forall t, In t tables -> contains (snd t) k = false) ->
  dict_get k (fold_left (record_matches passwords) tables d) = dict_get k d.
Proof.
  revert d. induction tables as [|t ts IH]; intros d Hno; [reflexivity|].
  simpl. rewrite IH by (intros; apply Hno; now right).
  rewrite get_record_matches, (Hno t) by now left.
  now rewrite andb_false_r.
Qed.

Lemma get_scan_last (k : pystr) (passwords : list pystr)
    (before after : list (string * pybytes)) (t : string * pybytes)
    (d : dict string) :
  In k passwords ->
  contains (snd t) k = true ->
  (forall t', In t' after -> contains (snd t') k = false) ->
  dict_get k (fold_left (record_matches passwords) (before ++ t :: after) d)
  = Some (basename (fst t)).
Proof.
  intros Hin Ht Hafter. rewrite fold_left_app. simpl.
  rewrite get_scan_none by assumption.
  rewrite get_record_matches, Ht.
  apply existsb_pystr_In in Hin. now rewrite Hin.
Qed.

Lemma keys_scan (k : pystr) (passwords : list pystr)
    (tables : list (string * pybytes)) (d : dict string) :
  In k (keys (fold_left (record_matches passwords) tables d)) <->
  In k (keys d) \/
  (In k passwords /\ exists t, In t tables /\ contains (snd t) k = true).
Proof.
  revert d. induction tables as [|t ts IH]; intros d; simpl.
  - split; [auto | intros [?|(_ & ? & [] & _)]; assumption].
  - rewrite IH, !keys_get, get_record_matches.
    destruct (existsb (pystr_eqb k) passwords) eqn:Ex; simpl.
    + apply existsb_pystr_In in Ex.
      destruct (contains (snd t) k) eqn:Ec.
      * split; [intros _; right; eauto 6 | intros _; left; eauto].
      * split.
        -- intros [?|(? & t' & ? & ?)]; [auto | right; eauto 6].
        -- intros [?|(? & t' & [->|?] & Hc)]; [auto | congruence |].
           right; eauto.
    + assert (Hnot : ~ In k passwords).
      { intros Hin. apply existsb_pystr_In in Hin. congruence. }
      tauto.
Qed.

(** ** The loops of [check_rainbow_table] *)

Lemma for_cons {S A} (x : A) (xs : list A) (body : A -> M S unit) (s : S) :
  for_ (x :: xs) body s =
  match body x s with
  | (Ok _, s') => for_ xs body s'
  | (Raise e, s') => (Raise e, s')
  end.
Proof. reflexivity. Qed.

Lemma for_ext {S A} (xs : list A) (f g : A -> M S unit) :
  (forall x s, f x s = g x s) -> forall s, for_ xs f s = for_ xs g s.
Proof.
  intros Hfg. induction xs as [|x xs IH]; intros s; [reflexivity|].
  rewrite !for_cons, Hfg. destruct (g x s) as [[[]|e] s']; auto.
Qed.

Lemma contains_encodable (content : pybytes) (pwd : pystr) :
  encodable pwd = true ->
  contains content pwd = mem (digest_transform pwd) (table_hashes content).
Proof. intros E. unfold contains. now rewrite ntlm_hash_ok. Qed.

(** The scan of one table records the matches of the credentials that come
    before the first one that cannot be encoded, and raises at that one. *)
Lemma scan_passwords_run (passwords : list pystr) (p : string) (content : pybytes) (d : dict string) (tr : list event) :
  scan_passwords passwords p (table_hashes content) (d, tr) =
  (if forallb encodable passwords then Ok tt else Raise UnicodeEncodeError,
   (record_matches (takewhile encodable passwords) d (p, content), tr)).
Proof.
  unfold scan_passwords. revert d.
  induction passwords as [|pwd ps IH]; intros d; [reflexivity|].
  rewrite for_cons. unfold bind at 1, lift at 1. simpl forallb. simpl takewhile.
  destruct (encodable pwd) eqn:E.
  - rewrite (ntlm_hash_ok _ E), record_matches_cons.
    rewrite (contains_encodable _ _ E). simpl snd. simpl fst.
    destruct (mem _ _); simpl; apply IH.
  - rewrite (ntlm_hash_raise _ E). reflexivity.
Qed.

Lemma rainbow_body_run (fs : filesystem) (passwords : list pystr)
    (dir : string) (s : scan_state) :
  rainbow_body fs passwords dir s =
  match listdir fs dir with
  | Ok names =>
      for_ (rainbow_files fs dir names) (scan_file fs passwords)
           (fst s, snd s ++ [Listdir dir])
  | Raise e => (Raise e, (fst s, snd s ++ [Listdir dir]))
  end.
Proof.
  destruct s as [d tr]. unfold rainbow_body, bind at 1, os_listdir. simpl.
  destruct (listdir fs dir); reflexivity.
Qed.

(** With credentials that all encode, the tables are scanned up to the
    first that does not open. *)
Lemma scan_files_encodable (fs : filesystem) (passwords : list pystr)
    (files : list string) (d : dict string) (tr : list event) :
  forallb encodable passwords = true ->
  for_ files (scan_file fs passwords) (d, tr) =
  (first_failure fs files,
   (fold_left (record_matches passwords) (readable_prefix fs files) d,
    tr ++ map Open (attempted fs files))).
Proof.
  intros E. revert d tr.
  induction files as [|p files IH]; intros d tr.
  - simpl. now rewrite app_nil_r.
  - rewrite for_cons. unfold scan_file at 1, bind at 1, open_rb at 1. simpl.
    destruct (read_bytes fs p) as [content|e]; [|reflexivity].
    fold (table_hashes content). rewrite scan_passwords_run, E.
    rewrite IH, <- app_assoc. simpl.
    replace (takewhile encodable passwords) with passwords; [reflexivity|].
    clear -E. induction passwords as [|x xs IHx]; [reflexivity|].
    simpl in *. apply andb_prop in E as [Ex Exs]. rewrite Ex. f_equal. auto.
Qed.

(** With a credential that does not encode, the run ends inside the first
    table. *)
Lemma scan_files_unencodable (fs : filesystem) (passwords : list pystr)
    (p : string) (files : list string) (d : dict string) (tr : list event) :
  forallb encodable passwords = false ->
  for_ (p :: files) (scan_file fs passwords) (d, tr) =
  match read_bytes fs p with
  | Ok content =>
      (Raise UnicodeEncodeError,
       (record_matches (takewhile encodable passwords) d (p, content),
        tr ++ [Open p]))
  | Raise e => (Raise e, (d, tr ++ [Open p]))
  end.
Proof.
  intros E. rewrite for_cons.
  unfold scan_file at 1, bind at 1, open_rb at 1. simpl.
  destruct (read_bytes fs p) as [content|e]; [|reflexivity].
  fold (table_hashes content). rewrite scan_passwords_run, E.
  reflexivity.
Qed.

Lemma check_rainbow_table_run (fs : filesystem) (passwords : list pystr)
    (dir : string) (tr : list event) :
  check_rainbow_table fs passwords dir tr =
  let '(r, (d, tr')) := rainbow_body fs passwords dir ([], tr) in
  (Ok d,
   match r with
   | Ok _ => tr'
   | Raise e =>
       tr' ++ [LogError (if is_FileNotFoundError e
                         then RainbowDirNotFound dir else RainbowError e)]
   end).
Proof.
  unfold check_rainbow_table.
  destruct (rainbow_body fs passwords dir ([], tr)) as [[[]|e] [d tr']];
    [reflexivity|].
  destruct (is_FileNotFoundError e); reflexivity.
Qed.

Lemma takewhile_all {A} (p : A -> bool) (l : list A) :
  forallb p l = true -> takewhile p l = l.
Proof.
  induction l as [|x l IH]; simpl; [reflexivity|].
  intros E. apply andb_prop in E as [Ex El]. rewrite Ex. f_equal. auto.
Qed.

Lemma takewhile_stop {A} (p : A -> bool) (before after : list A) (x : A) :
  forallb p before = true -> p x = false ->
  takewhile p (before ++ x :: after) = before /\
  forallb p (before ++ x :: after) = false.
Proof.
  induction before as [|y before IH]; simpl; intros E Hx.
  - now rewrite Hx.
  - apply andb_prop in E as [Ey Eb]. rewrite Ey.
    destruct (IH Eb Hx) as [-> ->]. auto.
Qed.

Lemma readable_stop (fs : filesystem) (before after : list string)
    (t : string) (e : exn) :
  (forall p, In p before -> exists c, read_bytes fs p = Ok c) ->
  read_bytes fs t = Raise e ->
  readable_prefix fs (before ++ t :: after) = readable_tables fs before /\
  attempted fs (before ++ t :: after) = before ++ [t] /\
  first_failure fs (before ++ t :: after) = Raise e.
Proof.
  intros Hb Ht. induction before as [|p before IH]; simpl.
  - now rewrite Ht.
  - destruct (Hb p) as [c Hc]; [now left|]. rewrite Hc.
    destruct IH as (-> & -> & ->); [intros; apply Hb; now right|]. auto.
Qed.

Lemma attempted_firstn (fs : filesystem) (files : list string) :
  exists k, attempted fs files = firstn k files.
Proof.
  induction files as [|p files [k IH]]; [now exists 0%nat|].
  simpl. destruct (read_bytes fs p).
  - exists (S k). simpl. now rewrite IH.
  - now exists 1%nat.
Qed.

Lemma readable_prefix_incl (fs : filesystem) (files : list string) :
  incl (readable_prefix fs files) (readable_tables fs files).
Proof.
  induction files as [|p files IH]; simpl; [apply incl_refl|].
  destruct (read_bytes fs p); [|intros ? []].
  intros t [<-|Ht]; [now left | right; auto].
Qed.

(** The run when every credential encodes. *)
Lemma run_encodable (fs : filesystem) (passwords : list pystr) (dir : string)
    (names : list string) (tr : list event) :
  listdir fs dir = Ok names ->
  forallb encodable passwords = true ->
  let files := rainbow_files fs dir names in
  check_rainbow_table fs passwords dir tr =
  (Ok (classify passwords (readable_prefix fs files)),
   match first_failure fs files with
   | Ok _ => (tr ++ [Listdir dir]) ++ map Open (attempted fs files)
   | Raise e =>
       ((tr ++ [Listdir dir]) ++ map Open (attempted fs files))
       ++ [LogError (if is_FileNotFoundError e
                     then RainbowDirNotFound dir else RainbowError e)]
   end).
Proof.
  intros Hl E files. rewrite check_rainbow_table_run, rainbow_body_run, Hl.
  simpl fst. simpl snd. fold files.
  rewrite scan_files_encodable by assumption.
  destruct (first_failure fs files) as [[]|e]; reflexivity.
Qed.

(** The run when some credential does not encode and a table is listed. *)
Lemma run_unencodable (fs : filesystem) (passwords : list pystr)
    (dir : string) (names : list string) (p : string) (rest : list string)
    (tr : list event) :
  listdir fs dir = Ok names ->
  forallb encodable passwords = false ->
  rainbow_files fs dir names = p :: rest ->
  check_rainbow_table fs passwords dir tr =
  match read_bytes fs p with
  | Ok content =>
      (Ok (record_matches (takewhile encodable passwords) [] (p, content)),
       tr ++ [Listdir dir; Open p; LogError (RainbowError UnicodeEncodeError)])
  | Raise e =>
      (Ok [],
       tr ++ [Listdir dir; Open p;
              LogError (if is_FileNotFoundError e
                        then RainbowDirNotFound dir else RainbowError e)])
  end.
Proof.
  intros Hl E Hf. rewrite check_rainbow_table_run, rainbow_body_run, Hl, Hf.
  simpl fst. simpl snd. rewrite scan_files_unencodable by assumption.
  destruct (read_bytes fs p); simpl; rewrite <- !app_assoc; reflexivity.
Qed.

Lemma run_no_table (fs : filesystem) (passwords : list pystr) (dir : string)
    (names : list string) (tr : list event) :
  listdir fs dir = Ok names ->
  rainbow_files fs dir names = [] ->
  check_rainbow_table fs passwords dir tr = (Ok [], tr ++ [Listdir dir]).
Proof.
  intros Hl Hf. rewrite check_rainbow_table_run, rainbow_body_run, Hl.
  unfold rainbow_files in Hf. unfold rainbow_files. now rewrite Hf.
Qed.

Lemma run_listdir_raise (fs : filesystem) (passwords : list pystr)
    (dir : string) (e : exn) (tr : list event) :
  listdir fs dir = Raise e ->
  check_rainbow_table fs passwords dir tr =
  (Ok [],
   (tr ++ [Listdir dir])
   ++ [LogError (if is_FileNotFoundError e
                 then RainbowDirNotFound dir else RainbowError e)]).
Proof.
  intros Hl. now rewrite check_rainbow_table_run, rainbow_body_run, Hl.
Qed.

(** ** Tie-break between tables *)

(** C1, as the design words it, fails: with tables "a.hash" then "b.hash"
    that both hold the digest of "abc123", the result attributes "abc123"
    to "b.hash". *)
Lemma first_table_wins_fails :
  result Scenarios.fs_ab [Scenario.abc123] "rainbow"
    = Ok [(Scenario.abc123, "b.hash")]
  /\ ~ first_table_wins.
Proof.
  split; [vm_compute; reflexivity|].
  intros Hclaim.
  destruct (Hclaim Scenarios.fs_ab [Scenario.abc123] "rainbow"
              ["a.hash"; "b.hash"] Scenario.abc123 []
              "rainbow/a.hash" Scenarios.table_abc123
              [("rainbow/b.hash", Scenarios.table_abc123)])
    as (d & Hd & Hget).
  - reflexivity.
  - reflexivity.
  - now left.
  - vm_compute. reflexivity.
  - intros t' [].
  - vm_compute. reflexivity.
  - exists ("rainbow/b.hash", Scenarios.table_abc123).
    split; [now left | vm_compute; reflexivity].
  - assert (E : Ok d = Ok [(Scenario.abc123, "b.hash")])
      by (rewrite <- Hd; vm_compute; reflexivity).
    inversion E; subst d. vm_compute in Hget. discriminate Hget.
Qed.

(** C1 (amended): when every credential encodes, a credential whose
    digest is in one or more of the processed tables is attributed to the
    last of them in processing order; a later match replaces an earlier
    one. *)
Theorem last_table_wins (fs : filesystem) (passwords : list pystr)
    (dir : string) (names : list string) (pwd : pystr)
    (before after : list (string * pybytes)) (t : string) (c : pybytes) :
  listdir fs dir = Ok names ->
  forallb encodable passwords = true ->
  In pwd passwords ->
  readable_prefix fs (rainbow_files fs dir names)
    = before ++ (t, c) :: after ->
  contains c pwd = true ->
  (forall t', In t' after -> contains (snd t') pwd = false) ->
  exists d, result fs passwords dir = Ok d /\
            dict_get pwd d = Some (basename t).
Proof.
  intros Hl E Hin Hp Hc Hafter.
  exists (classify passwords (readable_prefix fs (rainbow_files fs dir names))).
  split.
  - unfold result. now rewrite (run_encodable _ _ _ names).
  - rewrite Hp. unfold classify.
    now apply (get_scan_last pwd passwords before after (t, c)).
Qed.

Lemma last_table_wins_witness :
  exists d, result Scenarios.fs_ab [Scenario.abc123] "rainbow" = Ok d /\
            dict_get Scenario.abc123 d = Some (basename "rainbow/b.hash").
Proof.
  apply (last_table_wins Scenarios.fs_ab [Scenario.abc123] "rainbow"
           ["a.hash"; "b.hash"] Scenario.abc123
           [("rainbow/a.hash", Scenarios.table_abc123)] []
           "rainbow/b.hash" Scenarios.table_abc123).
  - reflexivity.
  - reflexivity.
  - now left.
  - vm_compute. reflexivity.
  - vm_compute. reflexivity.
  - intros t' [].
Defined.

(** ** Domain of the result *)

Lemma takewhile_incl {A} (p : A -> bool) (l : list A) :
  incl (takewhile p l) l.
Proof.
  induction l as [|x l IH]; simpl; [apply incl_refl|].
  destruct (p x); [|intros ? []].
  intros y [<-|Hy]; [now left | right; auto].
Qed.

Lemma firstn_incl {A} (k : nat) (l : list A) : incl (firstn k l) l.
Proof.
  intros x Hx. rewrite <- (firstn_skipn k l). apply in_or_app. now left.
Qed.

(** Whatever happens during the run, what the function returns is the
    no-error scan of the credentials that precede the first unencodable
    one against some first tables of those that open. *)
Lemma result_shape (fs : filesystem) (passwords : list pystr) (dir : string)
    (names : list string) (tr : list event) :
  listdir fs dir = Ok names ->
  exists k,
    fst (check_rainbow_table fs passwords dir tr) =
    Ok (classify (takewhile encodable passwords)
          (firstn k (readable_prefix fs (rainbow_files fs dir names)))).
Proof.
  intros Hl. destruct (forallb encodable passwords) eqn:E.
  - rewrite (run_encodable _ _ _ names), takewhile_all by assumption.
    exists (List.length (readable_prefix fs (rainbow_files fs dir names))).
    now rewrite firstn_all.
  - destruct (rainbow_files fs dir names) as [|p rest] eqn:Hf.
    + rewrite (run_no_table _ _ _ names) by assumption. now exists 0%nat.
    + rewrite (run_unencodable _ _ _ names p rest) by assumption.
      simpl. destruct (read_bytes fs p); [now exists 1%nat | now exists 0%nat].
Qed.

(** C2, as the design words it, fails: with credentials "password", a lone
    surrogate and "abc123", and one table holding the digests of the first
    and the last, the result is {"password": "t1.hash"}; counting the table
    as processed leaves "abc123" out of the domain, not counting it leaves
    "password" in it. *)
Lemma domain_is_membership_fails :
  result Scenarios.fs_both
    [Scenario.password; Scenario.lone_surrogate; Scenario.abc123] "rainbow"
    = Ok [(Scenario.password, "t1.hash")]
  /\ ~ domain_is_membership.
Proof.
  split; [vm_compute; reflexivity|].
  intros Hclaim.
  destruct (Hclaim Scenarios.fs_both
              [Scenario.password; Scenario.lone_surrogate; Scenario.abc123]
              "rainbow" ["t1.hash"] [(Scenario.password, "t1.hash")])
    as (_ & processed & Hincl & Hiff).
  - reflexivity.
  - vm_compute. reflexivity.
  - destruct processed as [|t rest].
    + destruct (proj1 (Hiff Scenario.password (or_introl eq_refl)))
        as (t & [] & _).
      now left.
    + assert (Ht : t = ("rainbow/t1.hash", Scenarios.table_both)).
      { destruct (Hincl t (or_introl eq_refl)) as [<-|[]]. reflexivity. }
      assert (Hin : In Scenario.abc123
                      (keys [(Scenario.password, "t1.hash")])).
      { apply (Hiff Scenario.abc123); [right; right; now left|].
        exists t. split; [now left|]. subst t. vm_compute. reflexivity. }
      destruct Hin as [Heq|[]]. discriminate Heq.
Qed.

(** C2 (amended): the domain of the result is a subset of the credential
    list, and every credential in it has its digest in a listed table that
    opens. When every credential of the list encodes, a credential of the
    list is in the domain if and only if its digest is in one of the tables
    opened before the first that fails to open. With credentials
    "password" and "Tr0ub4dor&3" and the one table "t1.hash" holding the
    digest of "password", the result is exactly {"password": "t1.hash"}. *)
Theorem domain_of_result (fs : filesystem) (passwords : list pystr)
    (dir : string) (names : list string) (d : dict string) :
  listdir fs dir = Ok names ->
  result fs passwords dir = Ok d ->
  let files := rainbow_files fs dir names in
  incl (keys d) passwords /\
  (forall pwd, In pwd (keys d) ->
     exists t, In t (readable_tables fs files) /\
               contains (snd t) pwd = true) /\
  (forallb encodable passwords = true ->
   forall pwd, In pwd passwords ->
     (In pwd (keys d) <->
      exists t, In t (readable_prefix fs files) /\
                contains (snd t) pwd = true)) /\
  result Scenarios.fs_t1 [Scenario.password; Scenario.troubador] "rainbow"
    = Ok [(Scenario.password, "t1.hash")].
Proof.
  intros Hl Hd files.
  destruct (result_shape fs passwords dir names [] Hl) as [k Hk].
  fold (result fs passwords dir) in Hk. rewrite Hd in Hk.
  injection Hk as Hk. fold files in Hk.
  assert (Hkeys : forall pwd, In pwd (keys d) ->
            In pwd passwords /\
            exists t, In t (readable_tables fs files) /\
                      contains (snd t) pwd = true).
  { intros pwd Hin. rewrite Hk in Hin. unfold classify in Hin.
    apply keys_scan in Hin as [[]|(Hp & t & Ht & Hc)].
    split; [now apply (takewhile_incl encodable)|].
    exists t. split; [|assumption].
    apply readable_prefix_incl. apply (firstn_incl k), Ht. }
  split; [|split; [|split]].
  - intros pwd Hin. now apply Hkeys.
  - intros pwd Hin. now apply Hkeys.
  - intros E pwd Hpwd.
    pose proof (run_encodable fs passwords dir names [] Hl E) as Hrun.
    apply (f_equal fst) in Hrun. fold (result fs passwords dir) in Hrun.
    simpl in Hrun. rewrite Hd in Hrun. injection Hrun as ->.
    fold files. unfold classify. rewrite keys_scan. split.
    + intros [[]|(_ & t & Ht & Hc)]. eauto.
    + intros (t & Ht & Hc). right. eauto.
  - vm_compute. reflexivity.
Qed.

Lemma domain_of_result_witness :
  let files := rainbow_files Scenarios.fs_t1 "rainbow" ["t1.hash"] in
  let d := [(Scenario.password, "t1.hash")] in
  incl (keys d) [Scenario.password; Scenario.troubador] /\
  (forall pwd, In pwd (keys d) ->
     exists t, In t (readable_tables Scenarios.fs_t1 files) /\
               contains (snd t) pwd = true) /\
  (forallb encodable [Scenario.password; Scenario.troubador] = true ->
   forall pwd, In pwd [Scenario.password; Scenario.troubador] ->
     (In pwd (keys d) <->
      exists t, In t (readable_prefix Scenarios.fs_t1 files) /\
                contains (snd t) pwd = true)) /\
  result Scenarios.fs_t1 [Scenario.password; Scenario.troubador] "rainbow"
    = Ok [(Scenario.password, "t1.hash")].
Proof.
  apply (domain_of_result Scenarios.fs_t1
           [Scenario.password; Scenario.troubador] "rainbow" ["t1.hash"]).
  - reflexivity.
  - vm_compute. reflexivity.
Defined.

(** ** Determinism and processing order *)

Lemma rainbow_body_ext (fs1 fs2 : filesystem) (passwords : list pystr)
    (dir : string) (s : scan_state) :
  listdir fs1 dir = listdir fs2 dir ->
  (forall p, isfile fs1 p = isfile fs2 p) ->
  (forall p, read_bytes fs1 p = read_bytes fs2 p) ->
  rainbow_body fs1 passwords dir s = rainbow_body fs2 passwords dir s.
Proof.
  intros Hl Hi Hr. rewrite !rainbow_body_run, Hl.
  destruct (listdir fs2 dir) as [names|e]; [|reflexivity].
  unfold rainbow_files. rewrite (filter_ext _ _ Hi).
  apply for_ext. intros p [d tr].
  unfold scan_file, bind, open_rb. simpl. now rewrite Hr.
Qed.

Lemma opened_app (tr1 tr2 : list event) :
  opened (tr1 ++ tr2) = opened tr1 ++ opened tr2.
Proof. apply filter_app. Qed.

Lemma opened_map_Open (paths : list string) :
  opened (map Open paths) = map Open paths.
Proof.
  induction paths as [|p paths IH]; simpl; [reflexivity|]. now rewrite IH.
Qed.

(** C3, as the design words it, fails: the same two tables enumerated as
    "a.hash", "b.hash" and as "b.hash", "a.hash" give two different
    results. *)
Lemma listing_order_irrelevant_fails :
  result Scenarios.fs_ab [Scenario.abc123] "rainbow"
    = Ok [(Scenario.abc123, "b.hash")]
  /\ result Scenarios.fs_ba [Scenario.abc123] "rainbow"
    = Ok [(Scenario.abc123, "a.hash")]
  /\ ~ listing_order_irrelevant.
Proof.
  split; [vm_compute; reflexivity|].
  split; [vm_compute; reflexivity|].
  intros Hclaim.
  assert (E : result Scenarios.fs_ab [Scenario.abc123] "rainbow"
              = result Scenarios.fs_ba [Scenario.abc123] "rainbow").
  { apply (Hclaim _ _ _ _ ["a.hash"; "b.hash"] ["b.hash"; "a.hash"]).
    - reflexivity.
    - reflexivity.
    - apply perm_swap.
    - intros p. unfold Scenarios.fs_ab, Scenarios.fs_ba. simpl.
      unfold Scenario.lookup. simpl.
      destruct (String.eqb p (path_join "rainbow" "a.hash")),
               (String.eqb p (path_join "rainbow" "b.hash")); reflexivity.
    - intros p. unfold Scenarios.fs_ab, Scenarios.fs_ba. simpl.
      unfold Scenario.lookup. simpl.
      destruct (String.eqb p (path_join "rainbow" "a.hash")),
               (String.eqb p (path_join "rainbow" "b.hash")); reflexivity. }
  assert (E' : Ok [(Scenario.abc123, "b.hash")]
               = Ok [(Scenario.abc123, "a.hash")] :> outcome (dict string)).
  { transitivity (result Scenarios.fs_ab [Scenario.abc123] "rainbow");
      [vm_compute; reflexivity|].
    rewrite E. vm_compute. reflexivity. }
  discriminate E'.
Qed.

(** C3 (amended): the run is a function of the credential list and of what
    [os.listdir], [os.path.isfile] and [open] answer: two runs in which
    these agree return the same result and leave the same trace. The
    tables are opened in the order [os.listdir] enumerates them; the
    program fixes no order of its own. *)
Theorem run_deterministic (fs1 fs2 : filesystem) (passwords : list pystr)
    (dir : string) (tr : list event) :
  listdir fs1 dir = listdir fs2 dir ->
  (forall p, isfile fs1 p = isfile fs2 p) ->
  (forall p, read_bytes fs1 p = read_bytes fs2 p) ->
  check_rainbow_table fs1 passwords dir tr
    = check_rainbow_table fs2 passwords dir tr /\
  forall names, listdir fs1 dir = Ok names ->
    exists k,
      opened (snd (check_rainbow_table fs1 passwords dir []))
      = map Open (firstn k (rainbow_files fs1 dir names)).
Proof.
  intros Hl Hi Hr. split.
  - rewrite !check_rainbow_table_run.
    now rewrite (rainbow_body_ext fs1 fs2).
  - intros names Hn. destruct (forallb encodable passwords) eqn:E.
    + rewrite (run_encodable _ _ _ names) by assumption. simpl snd.
      destruct (attempted_firstn fs1 (rainbow_files fs1 dir names)) as [k Hk].
      exists k. rewrite <- Hk.
      destruct (first_failure fs1 _); simpl; rewrite ?opened_app;
        rewrite opened_map_Open; simpl; now rewrite ?app_nil_r.
    + destruct (rainbow_files fs1 dir names) as [|p rest] eqn:Hf.
      * rewrite (run_no_table _ _ _ names) by assumption. now exists 0%nat.
      * rewrite (run_unencodable _ _ _ names p rest) by assumption.
        exists 1%nat. destruct (read_bytes fs1 p); reflexivity.
Qed.

Lemma run_deterministic_witness :
  check_rainbow_table Scenarios.fs_ab [Scenario.abc123] "rainbow" []
    = check_rainbow_table Scenarios.fs_ab_other [Scenario.abc123]
        "rainbow" [] /\
  forall names, listdir Scenarios.fs_ab "rainbow" = Ok names ->
    exists k,
      opened (snd (check_rainbow_table Scenarios.fs_ab [Scenario.abc123]
                     "rainbow" []))
      = map Open (firstn k (rainbow_files Scenarios.fs_ab "rainbow" names)).
Proof.
  apply (run_deterministic Scenarios.fs_ab Scenarios.fs_ab_other);
    reflexivity.
Defined.

(** ** Errors during the scan *)

(** C4, as the design words it, fails: with "missing.hash", which does not
    open, enumerated before "t1.hash", which holds the digest of
    "password", the result is empty, and the scan of the remaining source
    would give {"password": "t1.hash"}. *)
Lemma unavailable_table_skipped_fails :
  check_rainbow_table Scenarios.fs_missing [Scenario.password] "rainbow" []
    = (Ok [],
       [Listdir "rainbow"; Open "rainbow/missing.hash";
        LogError (RainbowDirNotFound "rainbow")])
  /\ classify [Scenario.password]
       (readable_tables Scenarios.fs_missing ["rainbow/t1.hash"])
     = [(Scenario.password, "t1.hash")]
  /\ ~ unavailable_table_skipped.
Proof.
  split; [vm_compute; reflexivity|].
  split; [vm_compute; reflexivity|].
  intros Hclaim.
  assert (E : result Scenarios.fs_missing [Scenario.password] "rainbow"
              = Ok (classify [Scenario.password]
                      (readable_tables Scenarios.fs_missing
                         ([] ++ ["rainbow/t1.hash"])))).
  { apply (Hclaim _ _ _ ["missing.hash"; "t1.hash"] []
             "rainbow/missing.hash" FileNotFoundError ["rainbow/t1.hash"]).
    - reflexivity.
    - reflexivity.
    - reflexivity.
    - reflexivity.
    - intros p [<-|[]]. now exists Scenarios.table_password. }
  assert (E' : Ok [] = Ok [(Scenario.password, "t1.hash")]
               :> outcome (dict string)).
  { transitivity (result Scenarios.fs_missing [Scenario.password] "rainbow");
      [vm_compute; reflexivity|].
    rewrite E. vm_compute. reflexivity. }
  discriminate E'.
Qed.

(** C4 (amended): when a table source cannot be opened and every credential
    encodes, the scan ends at that source: the function returns the result
    computed from the sources enumerated before it, the sources after it
    are not opened, and one error is logged. No count of skipped sources
    is kept. *)
Theorem unavailable_table_ends_scan (fs : filesystem)
    (passwords : list pystr) (dir : string) (names before after : list string)
    (t : string) (e : exn) (tr : list event) :
  listdir fs dir = Ok names ->
  forallb encodable passwords = true ->
  rainbow_files fs dir names = before ++ t :: after ->
  (forall p, In p before -> exists c, read_bytes fs p = Ok c) ->
  read_bytes fs t = Raise e ->
  check_rainbow_table fs passwords dir tr =
  (Ok (classify passwords (readable_tables fs before)),
   tr ++ Listdir dir :: map Open (before ++ [t])
      ++ [LogError (if is_FileNotFoundError e
                    then RainbowDirNotFound dir else RainbowError e)]).
Proof.
  intros Hl E Hf Hb Ht.
  rewrite (run_encodable _ _ _ names) by assumption. rewrite Hf.
  destruct (readable_stop fs before after t e Hb Ht) as (-> & -> & ->).
  now rewrite <- !app_assoc.
Qed.

Lemma unavailable_table_ends_scan_witness :
  check_rainbow_table Scenarios.fs_missing [Scenario.password] "rainbow" [] =
  (Ok (classify [Scenario.password] (readable_tables Scenarios.fs_missing [])),
   [] ++ Listdir "rainbow" :: map Open ([] ++ ["rainbow/missing.hash"])
      ++ [LogError (if is_FileNotFoundError FileNotFoundError
                    then RainbowDirNotFound "rainbow"
                    else RainbowError FileNotFoundError)]).
Proof.
  apply (unavailable_table_ends_scan Scenarios.fs_missing
           [Scenario.password] "rainbow" ["missing.hash"; "t1.hash"] []
           ["rainbow/t1.hash"]).
  - reflexivity.
  - reflexivity.
  - reflexivity.
  - intros p [].
  - reflexivity.
Defined.

(** C5, as the design words it, fails: with a lone surrogate listed before
    "password" and a table holding the digest of "password", the result is
    empty, and without the surrogate it is {"password": "t1.hash"}. *)
Lemma unencodable_credential_skipped_fails :
  check_rainbow_table Scenarios.fs_t1
    [Scenario.lone_surrogate; Scenario.password] "rainbow" []
    = (Ok [],
       [Listdir "rainbow"; Open "rainbow/t1.hash";
        LogError (RainbowError UnicodeEncodeError)])
  /\ result Scenarios.fs_t1 [Scenario.password] "rainbow"
     = Ok [(Scenario.password, "t1.hash")]
  /\ ~ unencodable_credential_skipped.
Proof.
  split; [vm_compute; reflexivity|].
  split; [vm_compute; reflexivity|].
  intros Hclaim.
  pose proof (Hclaim Scenarios.fs_t1
                [Scenario.lone_surrogate; Scenario.password] "rainbow") as E.
  assert (E' : Ok [] = Ok [(Scenario.password, "t1.hash")]
               :> outcome (dict string)).
  { transitivity (result Scenarios.fs_t1
                    [Scenario.lone_surrogate; Scenario.password] "rainbow");
      [vm_compute; reflexivity|].
    rewrite E. vm_compute. reflexivity. }
  discriminate E'.
Qed.

(** C5 (amended): a credential that cannot be encoded raises
    [UnicodeEncodeError] during the scan of the first table, and the handler
    around the whole scan ends the run there: the function returns the
    matches of the credentials listed before it against that first table,
    and processes neither the credentials after it nor any other table. *)
Theorem unencodable_credential_ends_scan (fs : filesystem) (dir : string)
    (names : list string) (before after : list pystr) (bad : pystr)
    (p : string) (rest : list string) (content : pybytes)
    (tr : list event) :
  listdir fs dir = Ok names ->
  forallb encodable before = true ->
  encodable bad = false ->
  rainbow_files fs dir names = p :: rest ->
  read_bytes fs p = Ok content ->
  check_rainbow_table fs (before ++ bad :: after) dir tr =
  (Ok (record_matches before [] (p, content)),
   tr ++ [Listdir dir; Open p; LogError (RainbowError UnicodeEncodeError)]).
Proof.
  intros Hl Eb Ebad Hf Hr.
  destruct (takewhile_stop encodable before after bad Eb Ebad) as [Ht Ea].
  rewrite (run_unencodable _ _ _ names p rest) by assumption.
  now rewrite Hr, Ht.
Qed.

Lemma unencodable_credential_ends_scan_witness :
  check_rainbow_table Scenarios.fs_both
    ([Scenario.password] ++ Scenario.lone_surrogate :: [Scenario.abc123])
    "rainbow" [] =
  (Ok (record_matches [Scenario.password] []
         ("rainbow/t1.hash", Scenarios.table_both)),
   [] ++ [Listdir "rainbow"; Open "rainbow/t1.hash";
          LogError (RainbowError UnicodeEncodeError)]).
Proof.
  apply (unencodable_credential_ends_scan Scenarios.fs_both "rainbow"
           ["t1.hash"] [Scenario.password] [Scenario.abc123]
           Scenario.lone_surrogate "rainbow/t1.hash" []); reflexivity.
Defined.

(** ** Totality of [check_rainbow_table] *)

(** C9: whatever the credential list and whatever the system answers,
    [check_rainbow_table] raises nothing and returns a dictionary: the one
    its body had built when it stopped, which is the no-error scan of the
    credentials before the first unencodable one against some first tables
    of those that open; when [os.listdir] raises (the directory does not
    exist), the dictionary is empty. *)
Theorem check_rainbow_table_total (fs : filesystem) (passwords : list pystr)
    (dir : string) (tr : list event) :
  exists d tr',
    check_rainbow_table fs passwords dir tr = (Ok d, tr') /\
    d = fst (snd (rainbow_body fs passwords dir ([], tr))) /\
    (forall names, listdir fs dir = Ok names ->
       exists k,
         d = classify (takewhile encodable passwords)
               (firstn k (readable_prefix fs (rainbow_files fs dir names)))) /\
    (forall e, listdir fs dir = Raise e -> d = []).
Proof.
  rewrite check_rainbow_table_run.
  destruct (rainbow_body fs passwords dir ([], tr)) as [r [d tr']] eqn:Hb.
  eexists d, _. split; [reflexivity|]. split; [reflexivity|]. split.
  - intros names Hl.
    destruct (result_shape fs passwords dir names tr Hl) as [k Hk].
    rewrite check_rainbow_table_run, Hb in Hk. simpl in Hk.
    exists k. congruence.
  - intros e Hl. rewrite rainbow_body_run, Hl in Hb. simpl in Hb. congruence.
Qed.

Lemma check_rainbow_table_total_witness :
  exists d tr',
    check_rainbow_table Scenarios.fs_t1 [Scenario.password] "nodir" []
      = (Ok d, tr') /\ d = [].
Proof.
  destruct (check_rainbow_table_total Scenarios.fs_t1 [Scenario.password]
              "nodir" []) as (d & tr' & Hrun & _ & _ & Hempty).
  exists d, tr'. split; [exact Hrun|].
  apply (Hempty FileNotFoundError). reflexivity.
Defined.

(** ** The digest transform is a pure function *)

Lemma length_le_bytes (width : nat) (n : N) :
  List.length (MD4.le_bytes width n) = width.
Proof. unfold MD4.le_bytes. now rewrite length_map, length_seq. Qed.

Lemma length_md4 (msg : pybytes) : List.length (MD4.digest msg) = 16%nat.
Proof.
  unfold MD4.digest.
  destruct (fold_left MD4.compress _ MD4.init) as [[[a b] c] d].
  now rewrite !length_app, !length_le_bytes.
Qed.

Lemma length_hex_upper (digest : pybytes) :
  List.length (hex_upper digest) = (2 * List.length digest)%nat.
Proof.
  induction digest as [|b digest IH]; [reflexivity|].
  change (hex_upper (b :: digest))
    with ([nth (N.to_nat (Byte.to_N b / 16)) HEX x00;
           nth (N.to_nat (Byte.to_N b mod 16)) HEX x00] ++ hex_upper digest).
  rewrite length_app, IH. simpl. lia.
Qed.



(** ** The guard of the entry point *)

Section EntryPoint.
Context `{PyUnicode}.

(** C7: when the credential file yields no credential, the entry point
    raises [ValueError("No passwords found in the file.")] and ends in its
    handler: the only file opened is the credential file, the table
    directory is not enumerated, no table is opened and no classification
    is produced. *)
Theorem empty_credentials_fatal (fs : filesystem) (text : pystr)
    (tr : list event) :
  read_text fs "combined_output.txt" = Ok text ->
  passwords_of_text text = [] ->
  main_try fs tr
    = (Raise (ValueError no_passwords), tr ++ [Open "combined_output.txt"]) /\
  main fs tr
    = (Ok None,
       tr ++ [Open "combined_output.txt";
              LogError (PasswordsError (ValueError no_passwords))]).
Proof.
  intros Hr Hp.
  assert (Htry : main_try fs tr
                 = (Raise (ValueError no_passwords),
                    tr ++ [Open "combined_output.txt"])).
  { unfold main_try, bind, open_text. now rewrite Hr, Hp. }
  split; [exact Htry|].
  unfold main. rewrite Htry. simpl. now rewrite <- app_assoc.
Qed.

(** The guard is the entry point's: called with an empty credential list,
    [check_rainbow_table] itself enumerates the directory, opens the tables
    and returns the empty dictionary. *)
Remark check_rainbow_table_empty_list (fs : filesystem) (dir : string)
    (names : list string) (tr : list event) :
  listdir fs dir = Ok names ->
  fst (check_rainbow_table fs [] dir tr) = Ok [] /\
  opened (snd (check_rainbow_table fs [] dir []))
    = map Open (attempted fs (rainbow_files fs dir names)).
Proof.
  intros Hl. rewrite !(run_encodable fs [] dir names) by auto. split.
  - simpl. unfold classify.
    induction (readable_prefix fs (rainbow_files fs dir names)); auto.
  - simpl snd. destruct (first_failure fs _); simpl;
      rewrite ?opened_app, opened_map_Open; simpl; now rewrite ?app_nil_r.
Qed.

(** ** The strength heuristic *)

(** C10: [strength_check] returns one of "Weak", "Medium" and "Strong" for
    every string; it returns "Weak" for every string shorter than 8
    characters; and for a string of at least 8 characters it returns
    "Strong" exactly when the string has an uppercase character, a
    lowercase character, a digit and a character that is not
    alphanumeric. *)
Theorem strength_check_spec (password : pystr) :
  (strength_check password = "Weak" \/ strength_check password = "Medium"
   \/ strength_check password = "Strong") /\
  ((List.length password < 8)%nat -> strength_check password = "Weak") /\
  ((8 <= List.length password)%nat ->
   (strength_check password = "Strong" <->
    (exists c, In c password /\ isupper c = true) /\
    (exists c, In c password /\ islower c = true) /\
    (exists c, In c password /\ isdigit c = true) /\
    (exists c, In c password /\ isalnum c = false))).
Proof.
  unfold strength_check.
  assert (Hsp : existsb (fun c => negb (isalnum c)) password = true <->
                exists c, In c password /\ isalnum c = false).
  { rewrite existsb_exists.
    split; intros (c & Hin & Hc); exists c; split; auto;
      [now apply negb_true_iff | now apply negb_true_iff]. }
  rewrite <- Hsp, <- !existsb_exists.
  destruct (Nat.ltb (List.length password) 8) eqn:Hlen.
  - apply Nat.ltb_lt in Hlen. split; [auto|]. split; [auto|]. lia.
  - apply Nat.ltb_ge in Hlen.
    destruct (existsb isupper password), (existsb islower password),
      (existsb isdigit password),
      (existsb (fun c => negb (isalnum c)) password); simpl;
      (split; [auto|]); (split; [lia|]); intros _;
      (split; [intros; try discriminate; auto
              | intros (? & ? & ? & ?); try discriminate; auto]).
Qed.

End EntryPoint.

Lemma empty_credentials_fatal_witness :
  main Scenarios.fs_blank []
  = (Ok None,
     [] ++ [Open "combined_output.txt";
            LogError (PasswordsError (ValueError no_passwords))]).
Proof.
  apply (empty_credentials_fatal Scenarios.fs_blank (str_of_string "   ") []);
    reflexivity.
Defined.

Lemma strength_check_spec_witness :
  strength_check (str_of_string "Ab1!") = "Weak" /\
  strength_check (str_of_string "Passw0rd!") = "Strong".
Proof.
  split.
  - apply (strength_check_spec (str_of_string "Ab1!")). simpl. lia.
  - apply (strength_check_spec (str_of_string "Passw0rd!")); [simpl; lia|].
    repeat split.
    + exists 80. split; [simpl; tauto | reflexivity].
    + exists 97. split; [simpl; tauto | reflexivity].
    + exists 48. split; [simpl; tauto | reflexivity].
    + exists 33. split; [simpl; tauto | reflexivity].
Defined.

(** ** Ingestion *)

Lemma dropwhile_suffix {A} (sp : A -> bool) (l : list A) :
  exists pre, l = pre ++ dropwhile sp l.
Proof.
  induction l as [|x l [pre IH]]; [now exists []|].
  simpl. destruct (sp x); [|now exists []].
  exists (x :: pre). simpl. now f_equal.
Qed.

Lemma dropwhile_starts_clean {A} (sp : A -> bool) (l : list A) :
  starts_clean sp (dropwhile sp l).
Proof.
  induction l as [|x l IH]; simpl; [exact I|].
  destruct (sp x) eqn:E; [exact IH | exact E].
Qed.

Lemma dropwhile_clean {A} (sp : A -> bool) (l : list A) :
  starts_clean sp l -> dropwhile sp l = l.
Proof. destruct l as [|x l]; simpl; [reflexivity|]. now intros ->. Qed.

Lemma dropwhile_Forall {A} (P : A -> Prop) (sp : A -> bool) (l : list A) :
  Forall P l -> Forall P (dropwhile sp l).
Proof.
  induction 1 as [|x l Hx Hl IH]; simpl; [constructor|].
  destruct (sp x); [assumption | now constructor].
Qed.

Lemma strip_with_Forall {A} (P : A -> Prop) (sp : A -> bool) (l : list A) :
  Forall P l -> Forall P (strip_with sp l).
Proof.
  intros Hl. unfold strip_with.
  now apply Forall_rev, dropwhile_Forall, Forall_rev, dropwhile_Forall.
Qed.

(** A stripped string starts and ends with a character that is not
    whitespace, so stripping it again changes nothing. *)
Lemma strip_with_idempotent {A} (sp : A -> bool) (l : list A) :
  strip_with sp (strip_with sp l) = strip_with sp l.
Proof.
  unfold strip_with.
  set (m := dropwhile sp l). set (r := dropwhile sp (rev m)).
  assert (Hm : starts_clean sp m) by apply dropwhile_starts_clean.
  assert (Hr : starts_clean sp r) by apply dropwhile_starts_clean.
  assert (Hrr : starts_clean sp (rev r)).
  { destruct (dropwhile_suffix sp (rev m)) as [pre Hpre]. fold r in Hpre.
    apply (f_equal (@rev A)) in Hpre. rewrite rev_involutive, rev_app_distr in Hpre.
    destruct (rev r) as [|x xs]; [exact I|].
    rewrite Hpre in Hm. exact Hm. }
  rewrite (dropwhile_clean sp (rev r) Hrr), rev_involutive.
  now rewrite (dropwhile_clean sp r Hr).
Qed.

Lemma splitlines_from_break_free (n : nat) :
  forall text cur,
    (List.length text <= n)%nat -> break_free cur ->
    Forall break_free (splitlines_from cur text).
Proof.
  assert (Hnil : forall cur, break_free cur ->
            Forall break_free (match cur with [] => [] | _ => [cur] end)).
  { intros [|x cur] Hcur; [constructor|]. constructor; [assumption|constructor]. }
  induction n as [|n IH]; intros [|c rest] cur Hlen Hcur; simpl in *;
    try (now apply Hnil); try lia.
  destruct (is_linebreak c) eqn:Hc.
  - constructor; [assumption|].
    destruct rest as [|c' rest'];
      [|destruct ((c =? 13) && (c' =? 10))];
      apply IH; simpl in *; try lia; constructor.
  - apply IH; [lia|]. apply Forall_app. split; [assumption|].
    repeat constructor. assumption.
Qed.

Lemma splitlines_break_free (text : pystr) :
  Forall break_free (splitlines text).
Proof.
  apply (splitlines_from_break_free (List.length text)); [lia | constructor].
Qed.

Lemma splitlines_from_line (x : pystr) :
  break_free x ->
  forall cur, cur ++ x <> [] -> splitlines_from cur x = [cur ++ x].
Proof.
  induction 1 as [|c x Hc Hx IH]; intros cur Hne; simpl.
  - rewrite app_nil_r in *. destruct cur; [contradiction | reflexivity].
  - rewrite Hc, IH, <- app_assoc; [reflexivity|].
    rewrite <- app_assoc. exact Hne.
Qed.

Lemma splitlines_from_newline (x tail : pystr) :
  break_free x ->
  forall cur,
    splitlines_from cur (x ++ newline ++ tail)
    = (cur ++ x) :: splitlines_from [] tail.
Proof.
  induction 1 as [|c x Hc Hx IH]; intros cur; simpl.
  - rewrite app_nil_r. now destruct tail.
  - rewrite Hc, IH, <- app_assoc. reflexivity.
Qed.

(** Writing lines that are not empty and hold no line boundary, one per
    line, and reading the lines back gives the same lines. *)
Lemma splitlines_join (ls : list pystr) :
  Forall (fun x => x <> [] /\ break_free x) ls ->
  splitlines (join newline ls) = ls.
Proof.
  unfold splitlines.
  induction 1 as [|x ls [Hne Hx] Hls IH]; [reflexivity|].
  destruct ls as [|y ls].
  - simpl. now apply (splitlines_from_line x Hx []).
  - change (join newline (x :: y :: ls))
      with (x ++ newline ++ join newline (y :: ls)).
    now rewrite splitlines_from_newline, IH.
Qed.

Lemma splitlines_from_cons (cur : pystr) (c : N) (rest : pystr) :
  splitlines_from cur (c :: rest) =
  if is_linebreak c then
    cur :: match rest with
           | c' :: rest' =>
               if (c =? 0x0D) && (c' =? 0x0A) then splitlines_from [] rest'
               else splitlines_from [] rest
           | [] => splitlines_from [] rest
           end
  else splitlines_from (cur ++ [c]) rest.
Proof. reflexivity. Qed.

Lemma splitlines_from_app_newline (n : nat) :
  forall a cur b line,
    (List.length a <= n)%nat ->
    In line (splitlines_from cur (a ++ newline ++ b)) ->
    In line (splitlines_from cur a) \/ line = [] \/ In line (splitlines b).
Proof.
  assert (Hnl : forall cur b line,
            In line (splitlines_from cur (newline ++ b)) ->
            In line (splitlines_from cur []) \/ line = []
            \/ In line (splitlines b)).
  { intros cur b line Hin.
    assert (E : splitlines_from cur (newline ++ b) = cur :: splitlines b)
      by now destruct b.
    rewrite E in Hin. destruct Hin as [<-|Hin]; [|auto].
    destruct cur; [auto | left; now left]. }
  induction n as [|n IH]; intros [|c a] cur b line Hlen Hin;
    try (now apply Hnl); [simpl in Hlen; lia|].
  change ((c :: a) ++ newline ++ b) with (c :: (a ++ newline ++ b)) in Hin.
  rewrite splitlines_from_cons in Hin. rewrite splitlines_from_cons.
  destruct (is_linebreak c) eqn:Hc.
  - destruct Hin as [<-|Hin]; [left; now left|].
    destruct a as [|c' a].
    + change ([] ++ newline ++ b) with (0x0A :: b) in Hin.
      cbv beta iota in Hin. change (10 =? 10) with true in Hin.
      destruct (c =? 13); simpl andb in Hin; cbv beta iota in Hin.
      * auto.
      * destruct (Hnl [] b line Hin) as [[]|Hr]. auto.
    + change ((c' :: a) ++ newline ++ b)
        with (c' :: (a ++ newline ++ b)) in Hin.
      cbv beta iota in Hin. cbv beta iota.
      destruct ((c =? 13) && (c' =? 10)).
      * apply IH in Hin; [|simpl in Hlen; lia].
        destruct Hin as [Hin|Hin]; [left; now right | auto].
      * apply (IH (c' :: a)) in Hin; [|simpl in *; lia].
        destruct Hin as [Hin|Hin]; [left; now right | auto].
  - apply IH in Hin; [assumption | simpl in Hlen; lia].
Qed.

(** A line of the combined text is empty or is a line of one of the
    combined contents. *)
Lemma splitlines_join_In (contents : list pystr) (line : pystr) :
  In line (splitlines (join newline contents)) ->
  line = [] \/
  exists content, In content contents /\ In line (splitlines content).
Proof.
  induction contents as [|x contents IH]; [intros []|].
  destruct contents as [|y contents].
  - intros Hin. right. exists x. split; [now left | assumption].
  - change (join newline (x :: y :: contents))
      with (x ++ newline ++ join newline (y :: contents)).
    intros Hin.
    apply (splitlines_from_app_newline (List.length x)) in Hin; [|lia].
    destruct Hin as [Hin|[Hin|Hin]].
    + right. exists x. split; [now left | assumption].
    + now left.
    + destruct (IH Hin) as [?|(content & Hc & Hl)]; [now left|].
      right. exists content. split; [now right | assumption].
Qed.

Lemma combine_content_In (fs : filesystem) (input_folder : string)
    (names : list string) (content : pystr) :
  In content (combine_content fs input_folder names) <->
  exists file_name,
    In file_name names /\
    isfile fs (path_join input_folder file_name) = true /\
    In content (convert_file fs file_name (path_join input_folder file_name)).
Proof.
  unfold combine_content. rewrite in_flat_map. split.
  - intros (file_name & Hn & Hin). exists file_name.
    destruct (isfile fs (path_join input_folder file_name));
      [auto | destruct Hin].
  - intros (file_name & Hn & Hf & Hin). exists file_name. now rewrite Hf.
Qed.

Lemma clean_lines_In (text line : pystr) :
  In line (clean_lines text) <->
  line <> [] /\
  exists input_line,
    In input_line (splitlines text) /\ line = str_strip input_line.
Proof.
  unfold clean_lines. rewrite in_map_iff. split.
  - intros (l & <- & Hin). apply filter_In in Hin as [Hin Hne].
    split; [|eauto]. now destruct (str_strip l).
  - intros (Hne & l & Hin & ->). exists l. split; [reflexivity|].
    apply filter_In. split; [assumption|]. now destruct (str_strip l).
Qed.

Lemma clean_lines_break_free (text : pystr) :
  Forall (fun x => x <> [] /\ break_free x) (clean_lines text).
Proof.
  apply Forall_forall. intros line Hin.
  apply clean_lines_In in Hin as (Hne & l & Hin & ->).
  split; [assumption|]. apply strip_with_Forall.
  pose proof (splitlines_break_free text) as Hall.
  rewrite Forall_forall in Hall. now apply Hall.
Qed.

Section IngestionProperties.
Variable fs : filesystem.
Variable list_set : list pystr -> list pystr.
Hypothesis list_set_NoDup : forall l, NoDup (list_set l).
Hypothesis list_set_In : forall l x, In x (list_set l) <-> In x l.

(** C8: when [convert_and_combine] writes its output, the lines of the
    text it writes are the members of the set of cleaned lines: each is
    the strip of a line of the content of one of the converted files of
    the folder, is not empty, is trimmed, and occurs exactly once. *)
Theorem convert_and_combine_clean (input_folder output_file : string)
    (written : pystr) :
  convert_and_combine fs list_set input_folder output_file
    = Ok (Some written) ->
  exists names,
    listdir fs input_folder = Ok names /\
    let combined_text :=
      join newline (combine_content fs input_folder names) in
    let lines := splitlines written in
    lines = list_set (clean_lines combined_text) /\
    NoDup lines /\
    forall line, In line lines ->
      line <> [] /\
      str_strip line = line /\
      (exists file_name content input_line,
         In file_name names /\
         In content (convert_file fs file_name
                       (path_join input_folder file_name)) /\
         In input_line (splitlines content) /\
         line = str_strip input_line) /\
      count_occ pystr_eq_dec lines line = 1%nat.
Proof.
  unfold convert_and_combine. intros Hrun.
  destruct (listdir fs input_folder) as [names|e]; [|discriminate].
  exists names. split; [reflexivity|].
  destruct (nonempty (combine_content fs input_folder names));
    [|discriminate].
  destruct (open_w fs output_file); [|discriminate].
  injection Hrun as <-.
  set (combined_text := join newline (combine_content fs input_folder names)).
  assert (Hall : Forall (fun x => x <> [] /\ break_free x)
                   (list_set (clean_lines combined_text))).
  { apply Forall_forall. intros x Hx. apply (proj1 (list_set_In _ _)) in Hx.
    pose proof (clean_lines_break_free combined_text) as Hc.
    rewrite Forall_forall in Hc. now apply Hc. }
  cbv zeta. rewrite (splitlines_join _ Hall).
  split; [reflexivity|]. split; [apply list_set_NoDup|].
  intros line Hin. pose proof Hin as Hin'.
  apply (proj1 (list_set_In _ _)) in Hin'.
  apply clean_lines_In in Hin' as (Hne & l & Hl & ->).
  split; [assumption|]. split; [apply strip_with_idempotent|].
  split; [|apply NoDup_count_occ'; [apply list_set_NoDup | assumption]].
  apply splitlines_join_In in Hl as [->|(content & Hc & Hl)];
    [exfalso; apply Hne; reflexivity|].
  apply combine_content_In in Hc as (file_name & Hn & _ & Hc).
  exists file_name, content, l. auto.
Qed.

End IngestionProperties.

Lemma convert_and_combine_clean_witness :
  let written := str_of_string "password" ++ newline
                 ++ str_of_string "abc123" ++ newline
                 ++ str_of_string "x, y" in
  exists names,
    listdir Scenarios.fs_data "data" = Ok names /\
    let combined_text :=
      join newline (combine_content Scenarios.fs_data "data" names) in
    let lines := splitlines written in
    lines = Scenarios.enumerate_set (clean_lines combined_text) /\
    NoDup lines /\
    forall line, In line lines ->
      line <> [] /\
      str_strip line = line /\
      (exists file_name content input_line,
         In file_name names /\
         In content (convert_file Scenarios.fs_data file_name
                       (path_join "data" file_name)) /\
         In input_line (splitlines content) /\
         line = str_strip input_line) /\
      count_occ pystr_eq_dec lines line = 1%nat.
Proof.
  apply (convert_and_combine_clean Scenarios.fs_data Scenarios.enumerate_set
           (NoDup_nodup pystr_eq_dec) (nodup_In pystr_eq_dec)
           "data" "combined_output.txt").
  vm_compute. reflexivity.
Defined.

(** * Further properties of the classification engine *)

(** ** The result as a table of attributions *)

Lemma get_scan_fold (k : pystr) (passwords : list pystr)
    (tables : list (string * pybytes)) (d : dict string) :
  dict_get k (fold_left (record_matches passwords) tables d) =
  if existsb (pystr_eqb k) passwords
  then fold_left (fun acc t =>
                    if contains (snd t) k then Some (basename (fst t))
                    else acc)
                 tables (dict_get k d)
  else dict_get k d.
Proof.
  revert d. induction tables as [|t ts IH]; intros d; simpl.
  - now destruct (existsb _ passwords).
  - rewrite IH, get_record_matches.
    destruct (existsb (pystr_eqb k) passwords); simpl; [|reflexivity].
    now destruct (contains (snd t) k).
Qed.

Lemma get_classify (k : pystr) (passwords : list pystr)
    (tables : list (string * pybytes)) :
  dict_get k (classify passwords tables) =
  if existsb (pystr_eqb k) passwords then attribution k tables else None.
Proof. unfold classify. now rewrite get_scan_fold. Qed.

Lemma attribution_Some (k : pystr) (tables : list (string * pybytes))
    (acc : option string) (v : string) :
  fold_left (fun acc t =>
               if contains (snd t) k then Some (basename (fst t)) else acc)
            tables acc = Some v ->
  acc = Some v \/
  exists t, In t tables /\ contains (snd t) k = true /\ v = basename (fst t).
Proof.
  revert acc. induction tables as [|t ts IH]; intros acc; simpl; [auto|].
  intros Hf. apply IH in Hf as [Hacc|(t' & Hin & Hc & Hv)].
  - destruct (contains (snd t) k) eqn:Hc; [|auto].
    right. exists t. injection Hacc as <-. auto.
  - right. exists t'. auto.
Qed.

Lemma readable_tables_In (fs : filesystem) (files : list string)
    (t : string * pybytes) :
  In t (readable_tables fs files) <->
  In (fst t) files /\ read_bytes fs (fst t) = Ok (snd t).
Proof.
  induction files as [|p files IH]; simpl; [tauto|].
  destruct (read_bytes fs p) as [content|e] eqn:Hr; simpl; rewrite IH.
  - split.
    + intros [<-|[Hin Ht]]; simpl; auto.
    + intros [[->|Hin] Ht]; [left|right; auto].
      destruct t as [p' c]. simpl in *. congruence.
  - split; [tauto|]. intros [[->|Hin] Ht]; [congruence | auto].
Qed.

Lemma rainbow_files_In (fs : filesystem) (dir : string)
    (names : list string) (path : string) :
  In path (rainbow_files fs dir names) <->
  isfile fs path = true /\
  exists name, In name names /\ path = path_join dir name.
Proof.
  unfold rainbow_files. rewrite filter_In, in_map_iff. split.
  - intros [(name & <- & Hn) Hf]. eauto.
  - intros [Hf (name & Hn & ->)]. eauto.
Qed.

Lemma keys_NoDup_record (passwords : list pystr) (d : dict string)
    (t : string * pybytes) :
  NoDup (keys d) -> NoDup (keys (record_matches passwords d t)).
Proof.
  revert d. induction passwords as [|pwd ps IH]; intros d ND; [assumption|].
  rewrite record_matches_cons. apply IH.
  destruct (contains (snd t) pwd); [now apply keys_NoDup_set | assumption].
Qed.

Lemma keys_NoDup_classify (passwords : list pystr)
    (tables : list (string * pybytes)) :
  NoDup (keys (classify passwords tables)).
Proof.
  unfold classify.
  assert (H : forall d, NoDup (keys d) ->
            NoDup (keys (fold_left (record_matches passwords) tables d))).
  { induction tables as [|t ts IH]; intros d ND; [assumption|].
    simpl. now apply IH, keys_NoDup_record. }
  apply H. constructor.
Qed.

(** What the function returns, whether or not [os.listdir] raises. *)
Lemma result_cases (fs : filesystem) (passwords : list pystr) (dir : string)
    (tr : list event) :
  (exists e, listdir fs dir = Raise e /\
             fst (check_rainbow_table fs passwords dir tr) = Ok []) \/
  (exists names k,
     listdir fs dir = Ok names /\
     fst (check_rainbow_table fs passwords dir tr) =
     Ok (classify (takewhile encodable passwords)
           (firstn k (readable_prefix fs (rainbow_files fs dir names))))).
Proof.
  destruct (listdir fs dir) as [names|e] eqn:Hl.
  - right. destruct (result_shape fs passwords dir names tr Hl) as [k Hk].
    exists names, k. auto.
  - left. exists e. split; [reflexivity|].
    now rewrite (run_listdir_raise _ _ _ e).
Qed.

(** X1: the dictionary returned by [check_rainbow_table] holds each
    credential at most once, also when the credential list repeats it, and
    has no more entries than the list has credentials. *)
Theorem result_keys_unique (fs : filesystem) (passwords : list pystr)
    (dir : string) (tr : list event) :
  exists d,
    fst (check_rainbow_table fs passwords dir tr) = Ok d /\
    NoDup (keys d) /\
    (List.length d <= List.length passwords)%nat.
Proof.
  destruct (result_cases fs passwords dir tr)
    as [(e & _ & Hr)|(names & k & _ & Hr)].
  - exists []. split; [assumption|]. split; [constructor | simpl; lia].
  - eexists. split; [eassumption|].
    assert (ND := keys_NoDup_classify (takewhile encodable passwords)
                    (firstn k (readable_prefix fs
                                 (rainbow_files fs dir names)))).
    split; [assumption|].
    rewrite <- (length_map fst). change (map fst ?d) with (keys d).
    apply NoDup_incl_length; [assumption|].
    intros x Hx. unfold classify in Hx.
    apply keys_scan in Hx as [[]|(Hp & _)].
    now apply (takewhile_incl encodable).
Qed.

(** X2: every entry of the result is a true attribution: the value stored
    for a credential is the base name of an entry of the directory that is
    a regular file, opens, and holds the digest of that credential on one of
    its lines; for an entry name without a separator the value is that
    name. *)
Theorem result_attribution_sound (fs : filesystem) (passwords : list pystr)
    (dir : string) (tr : list event) (d : dict string) (pwd : pystr)
    (table : string) :
  fst (check_rainbow_table fs passwords dir tr) = Ok d ->
  dict_get pwd d = Some table ->
  exists names name content,
    listdir fs dir = Ok names /\
    In name names /\
    isfile fs (path_join dir name) = true /\
    read_bytes fs (path_join dir name) = Ok content /\
    contains content pwd = true /\
    In pwd passwords /\
    table = basename (path_join dir name) /\
    (has_sep name = false -> table = name).
Proof.
  intros Hr Hget.
  destruct (result_cases fs passwords dir tr)
    as [(e & _ & Hr')|(names & k & Hl & Hr')];
    rewrite Hr in Hr'; injection Hr' as ->; [discriminate Hget|].
  rewrite get_classify in Hget.
  destruct (existsb _ _) eqn:Hex; [|discriminate Hget].
  apply existsb_pystr_In, (takewhile_incl encodable) in Hex.
  apply attribution_Some in Hget as [Hget|(t & Hin & Hc & ->)];
    [discriminate Hget|].
  apply (firstn_incl k), readable_prefix_incl in Hin.
  apply readable_tables_In in Hin as [Hfile Hread].
  apply rainbow_files_In in Hfile as (Hisfile & name & Hname & Hpath).
  exists names, name, (snd t). rewrite <- Hpath.
  repeat (split; [assumption|]). split; [reflexivity|].
  intros Hsep. rewrite Hpath. now apply basename_path_join.
Qed.

Lemma result_attribution_sound_witness :
  exists names name content,
    listdir Scenarios.fs_t1 "rainbow" = Ok names /\
    In name names /\
    isfile Scenarios.fs_t1 (path_join "rainbow" name) = true /\
    read_bytes Scenarios.fs_t1 (path_join "rainbow" name) = Ok content /\
    contains content Scenario.password = true /\
    In Scenario.password [Scenario.password; Scenario.troubador] /\
    "t1.hash" = basename (path_join "rainbow" name) /\
    (has_sep name = false -> "t1.hash" = name).
Proof.
  apply (result_attribution_sound Scenarios.fs_t1
           [Scenario.password; Scenario.troubador] "rainbow" []
           [(Scenario.password, "t1.hash")]);
    vm_compute; reflexivity.
Defined.

(** ** What the result does not depend on *)

Lemma existsb_pystr_same (k : pystr) (l1 l2 : list pystr) :
  (forall p, In p l1 <-> In p l2) ->
  existsb (pystr_eqb k) l1 = existsb (pystr_eqb k) l2.
Proof.
  intros Hsame.
  destruct (existsb (pystr_eqb k) l1) eqn:E1,
           (existsb (pystr_eqb k) l2) eqn:E2; try reflexivity.
  - apply existsb_pystr_In, Hsame, existsb_pystr_In in E1. congruence.
  - apply existsb_pystr_In, Hsame, existsb_pystr_In in E2. congruence.
Qed.

(** X3: when every credential encodes, the attribution of a credential
    depends on whether it is in the credential list, not on where or how
    often: two lists with the same members give results with the same
    lookups. *)
Theorem credential_order_irrelevant (fs : filesystem)
    (passwords1 passwords2 : list pystr) (dir : string) :
  forallb encodable passwords1 = true ->
  (forall p, In p passwords1 <-> In p passwords2) ->
  exists d1 d2,
    result fs passwords1 dir = Ok d1 /\
    result fs passwords2 dir = Ok d2 /\
    forall pwd, dict_get pwd d1 = dict_get pwd d2.
Proof.
  intros E1 Hsame.
  assert (E2 : forallb encodable passwords2 = true).
  { apply forallb_forall. intros p Hp. apply Hsame in Hp.
    revert p Hp. now apply forallb_forall. }
  unfold result. destruct (listdir fs dir) as [names|e] eqn:Hl.
  - rewrite !(run_encodable _ _ _ names) by assumption.
    do 2 eexists. split; [reflexivity|]. split; [reflexivity|].
    intros pwd. now rewrite !get_classify, (existsb_pystr_same pwd _ _ Hsame).
  - rewrite !(run_listdir_raise _ _ _ e) by assumption.
    exists [], []. auto.
Qed.

Lemma credential_order_irrelevant_witness :
  exists d1 d2,
    result Scenarios.fs_both [Scenario.password; Scenario.abc123] "rainbow"
      = Ok d1 /\
    result Scenarios.fs_both
      [Scenario.abc123; Scenario.password; Scenario.abc123] "rainbow"
      = Ok d2 /\
    forall pwd, dict_get pwd d1 = dict_get pwd d2.
Proof.
  apply credential_order_irrelevant; [reflexivity|].
  intros p. simpl. tauto.
Defined.

Lemma attribution_None (k : pystr) (tables : list (string * pybytes)) :
  attribution k tables = None <->
  forall t, In t tables -> contains (snd t) k = false.
Proof.
  unfold attribution.
  assert (H : forall acc,
            fold_left (fun acc t =>
                         if contains (snd t) k then Some (basename (fst t))
                         else acc) tables acc = None <->
            acc = None /\ forall t, In t tables -> contains (snd t) k = false).
  { induction tables as [|t ts IH]; intros acc; simpl.
    - split; [intros ->; split; [reflexivity | intros ? []] | tauto].
    - rewrite IH. destruct (contains (snd t) k) eqn:Hc.
      + split; [intros [[=] _]|].
        intros [_ Hall]. specialize (Hall t (or_introl eq_refl)). congruence.
      + split.
        * intros [-> Hall]. split; [reflexivity|].
          intros t' [<-|Hin]; auto.
        * intros [-> Hall]. split; [reflexivity|]. intros t' Hin.
          apply Hall. now right. }
  rewrite H. tauto.
Qed.

(** Two sequences of tables with the same members attribute a credential
    alike when the tables that hold its digest share one identifier. *)
Lemma attribution_same_members (k : pystr)
    (tables1 tables2 : list (string * pybytes)) :
  (forall t, In t tables1 <-> In t tables2) ->
  (forall t t', In t tables1 -> In t' tables1 ->
     contains (snd t) k = true -> contains (snd t') k = true ->
     basename (fst t) = basename (fst t')) ->
  attribution k tables1 = attribution k tables2.
Proof.
  intros Hsame Hone.
  destruct (attribution k tables1) as [v1|] eqn:A1.
  - destruct (attribution k tables2) as [v2|] eqn:A2.
    + apply attribution_Some in A1 as [[=]|(t1 & Hin1 & Hc1 & ->)].
      apply attribution_Some in A2 as [[=]|(t2 & Hin2 & Hc2 & ->)].
      f_equal. apply Hone; auto. now apply Hsame.
    + apply attribution_Some in A1 as [[=]|(t1 & Hin1 & Hc1 & _)].
      rewrite attribution_None in A2.
      rewrite (A2 t1) in Hc1 by now apply Hsame. discriminate.
  - symmetry. rewrite attribution_None in *.
    intros t Hin. apply A1. now apply Hsame.
Qed.

Lemma readable_prefix_all (fs : filesystem) (files : list string) :
  (forall p, In p files -> exists c, read_bytes fs p = Ok c) ->
  readable_prefix fs files = readable_tables fs files.
Proof.
  induction files as [|p files IH]; intros Hall; [reflexivity|].
  simpl. destruct (Hall p (or_introl eq_refl)) as [c ->].
  rewrite IH; [reflexivity|]. intros q Hq. apply Hall. now right.
Qed.

(** X4: the enumeration order of the directory matters only for
    credentials held by several tables. When every table opens, every
    credential encodes, and the tables that hold the digest of a credential
    all share one identifier, two enumerations of the same directory give
    results with the same lookups. *)
Theorem listing_order_irrelevant_without_conflict (fs1 fs2 : filesystem)
    (passwords : list pystr) (dir : string) (names1 names2 : list string) :
  listdir fs1 dir = Ok names1 ->
  listdir fs2 dir = Ok names2 ->
  Permutation names1 names2 ->
  (forall p, isfile fs1 p = isfile fs2 p) ->
  (forall p, read_bytes fs1 p = read_bytes fs2 p) ->
  forallb encodable passwords = true ->
  (forall p, In p (rainbow_files fs1 dir names1) ->
     exists c, read_bytes fs1 p = Ok c) ->
  (forall pwd t t',
     In t (readable_tables fs1 (rainbow_files fs1 dir names1)) ->
     In t' (readable_tables fs1 (rainbow_files fs1 dir names1)) ->
     contains (snd t) pwd = true -> contains (snd t') pwd = true ->
     basename (fst t) = basename (fst t')) ->
  exists d1 d2,
    result fs1 passwords dir = Ok d1 /\
    result fs2 passwords dir = Ok d2 /\
    forall pwd, dict_get pwd d1 = dict_get pwd d2.
Proof.
  intros Hl1 Hl2 Hperm Hi Hr E Hall Hone.
  assert (Hfiles : forall p, In p (rainbow_files fs1 dir names1) <->
                             In p (rainbow_files fs2 dir names2)).
  { intros p. rewrite !rainbow_files_In, Hi.
    split; intros [Hf (name & Hn & ->)]; (split; [assumption|]);
      exists name; (split; [|reflexivity]).
    - now apply (Permutation_in _ Hperm).
    - now apply (Permutation_in _ (Permutation_sym Hperm)). }
  assert (Hall2 : forall p, In p (rainbow_files fs2 dir names2) ->
                    exists c, read_bytes fs2 p = Ok c).
  { intros p Hp. rewrite <- Hr. now apply Hall, Hfiles. }
  assert (Htables : forall t,
            In t (readable_tables fs1 (rainbow_files fs1 dir names1)) <->
            In t (readable_tables fs2 (rainbow_files fs2 dir names2))).
  { intros t. now rewrite !readable_tables_In, Hfiles, Hr. }
  unfold result.
  rewrite (run_encodable fs1 _ _ names1), (run_encodable fs2 _ _ names2)
    by assumption.
  rewrite !readable_prefix_all by assumption.
  do 2 eexists. split; [reflexivity|]. split; [reflexivity|].
  intros pwd. rewrite !get_classify.
  destruct (existsb (pystr_eqb pwd) passwords); [|reflexivity].
  apply attribution_same_members; [assumption|]. intros t t'. apply Hone.
Qed.

Lemma listing_order_irrelevant_without_conflict_witness :
  exists d1 d2,
    result Examples.fs_pq [Scenario.password; Scenario.abc123] "rainbow"
      = Ok d1 /\
    result Examples.fs_qp [Scenario.password; Scenario.abc123] "rainbow"
      = Ok d2 /\
    forall pwd, dict_get pwd d1 = dict_get pwd d2.
Proof.
  assert (Hne : path_join "rainbow" "p.hash" <> path_join "rainbow" "q.hash")
    by (vm_compute; discriminate).
  apply (listing_order_irrelevant_without_conflict
           Examples.fs_pq Examples.fs_qp _ "rainbow"
           ["p.hash"; "q.hash"] ["q.hash"; "p.hash"]).
  - reflexivity.
  - reflexivity.
  - apply perm_swap.
  - intros p. unfold Examples.fs_pq, Examples.fs_qp. simpl.
    unfold Scenario.lookup. simpl.
    destruct (String.eqb_spec p (path_join "rainbow" "p.hash")),
             (String.eqb_spec p (path_join "rainbow" "q.hash"));
      try reflexivity.
  - intros p. unfold Examples.fs_pq, Examples.fs_qp. simpl.
    unfold Scenario.lookup. simpl.
    destruct (String.eqb_spec p (path_join "rainbow" "p.hash")),
             (String.eqb_spec p (path_join "rainbow" "q.hash"));
      try reflexivity.
    exfalso. apply Hne. congruence.
  - reflexivity.
  - intros p [<-|[<-|[]]]; eexists; reflexivity.
  - intros pwd t t' Ht Ht' Hc Hc'.
    destruct Ht as [<-|[<-|[]]], Ht' as [<-|[<-|[]]]; try reflexivity;
      exfalso;
      apply contains_iff in Hc as (h & line & Hh & Hin & Hs);
      apply contains_iff in Hc' as (h' & line' & Hh' & Hin' & Hs');
      destruct Hin as [<-|[]]; destruct Hin' as [<-|[]];
      rewrite Hh in Hh'; injection Hh' as <-; subst h;
      vm_compute in Hs'; discriminate Hs'.
Defined.

(** X5: an entry of the directory that is not a regular file (a
    sub-directory, say) is passed over: the run returns the same result and
    leaves the same trace as on the directory without that entry. *)
Theorem non_file_entry_ignored (fs fs' : filesystem)
    (passwords : list pystr) (dir : string) (before after : list string)
    (entry : string) (tr : list event) :
  listdir fs dir = Ok (before ++ entry :: after) ->
  listdir fs' dir = Ok (before ++ after) ->
  isfile fs (path_join dir entry) = false ->
  (forall p, isfile fs p = isfile fs' p) ->
  (forall p, read_bytes fs p = read_bytes fs' p) ->
  check_rainbow_table fs passwords dir tr
    = check_rainbow_table fs' passwords dir tr.
Proof.
  intros Hl Hl' Hentry Hi Hr.
  rewrite !check_rainbow_table_run, !rainbow_body_run, Hl, Hl'.
  assert (Hfiles : rainbow_files fs dir (before ++ entry :: after)
                   = rainbow_files fs' dir (before ++ after)).
  { unfold rainbow_files. rewrite !map_app, !filter_app. simpl.
    rewrite Hentry. now rewrite !(filter_ext _ _ Hi). }
  rewrite Hfiles.
  rewrite (for_ext _ (scan_file fs passwords) (scan_file fs' passwords));
    [reflexivity|].
  intros p [d t]. unfold scan_file, bind, open_rb. simpl. now rewrite Hr.
Qed.

Lemma non_file_entry_ignored_witness :
  check_rainbow_table Examples.fs_t1_subdir [Scenario.password] "rainbow" []
    = check_rainbow_table Scenarios.fs_t1 [Scenario.password] "rainbow" [].
Proof.
  apply (non_file_entry_ignored Examples.fs_t1_subdir Scenarios.fs_t1
           [Scenario.password] "rainbow" [] ["t1.hash"] "old");
    reflexivity.
Defined.

(** ** The format of a table *)

Lemma is_HEX_hex_upper_byte (b : byte) :
  forallb is_HEX (hex_upper [b]) = true.
Proof. destruct b; reflexivity. Qed.

Lemma is_HEX_hex_upper (digest : pybytes) :
  forallb is_HEX (hex_upper digest) = true.
Proof.
  induction digest as [|b digest IH]; [reflexivity|].
  change (hex_upper (b :: digest)) with (hex_upper [b] ++ hex_upper digest).
  rewrite forallb_app, IH, is_HEX_hex_upper_byte. reflexivity.
Qed.

Lemma is_HEX_not_space (b : byte) :
  is_HEX b = true -> bytes_isspace b = false.
Proof.
  destruct b; vm_compute; intros E; (reflexivity || discriminate E).
Qed.

Lemma digest_well_formed (pwd : pystr) :
  Nat.eqb (List.length (digest_transform pwd)) 32
  && forallb is_HEX (digest_transform pwd) = true.
Proof.
  unfold digest_transform.
  now rewrite length_hex_upper, length_md4, is_HEX_hex_upper.
Qed.

(** X6: only a line that, stripped of surrounding whitespace, is 32
    uppercase hexadecimal digits can match a credential: a table none of
    whose lines has that form (one written in lowercase, say) matches no
    credential at all. *)
Theorem malformed_table_matches_nothing (content : pybytes) (pwd : pystr) :
  (forall line, In line (iter_lines content) ->
     well_formed_entry line = false) ->
  contains content pwd = false.
Proof.
  intros Hmal. destruct (contains content pwd) eqn:Hc; [|reflexivity].
  apply contains_iff in Hc as (h & line & Hh & Hin & Hs).
  destruct (encodable pwd) eqn:E.
  - rewrite (ntlm_hash_ok _ E) in Hh. injection Hh as <-.
    specialize (Hmal line Hin). unfold well_formed_entry in Hmal.
    rewrite Hs in Hmal. now rewrite digest_well_formed in Hmal.
  - rewrite (ntlm_hash_raise _ E) in Hh. discriminate Hh.
Qed.

Lemma malformed_table_matches_nothing_witness :
  contains Examples.table_lowercase Scenario.password = false.
Proof.
  apply malformed_table_matches_nothing.
  intros line [<-|[]]. reflexivity.
Defined.

Lemma dropwhile_all {A} (sp : A -> bool) (ws l : list A) :
  forallb sp ws = true -> dropwhile sp (ws ++ l) = dropwhile sp l.
Proof.
  induction ws as [|w ws IH]; simpl; [reflexivity|].
  intros E. apply andb_prop in E as [-> E]. auto.
Qed.

Lemma forallb_rev {A} (p : A -> bool) (l : list A) :
  forallb p (rev l) = forallb p l.
Proof.
  induction l as [|x l IH]; [reflexivity|].
  simpl. rewrite forallb_app, IH. simpl. rewrite andb_true_r. apply andb_comm.
Qed.

(** Whitespace around a string that itself starts and ends with something
    else is what [strip] removes. *)
Lemma strip_with_padded {A} (sp : A -> bool) (ws1 ws2 h : list A) :
  forallb sp ws1 = true -> forallb sp ws2 = true ->
  starts_clean sp h -> starts_clean sp (rev h) ->
  strip_with sp (ws1 ++ h ++ ws2) = h.
Proof.
  intros E1 E2 Hh Hr. unfold strip_with.
  rewrite (dropwhile_all sp ws1) by assumption.
  destruct h as [|x h].
  - simpl app. rewrite <- (app_nil_r ws2), (dropwhile_all sp ws2) by assumption.
    reflexivity.
  - change (dropwhile sp ((x :: h) ++ ws2)) with (dropwhile sp (x :: h ++ ws2)).
    simpl dropwhile. simpl in Hh. rewrite Hh.
    change (x :: h ++ ws2) with ((x :: h) ++ ws2).
    rewrite rev_app_distr, (dropwhile_all sp (rev ws2))
      by now rewrite forallb_rev.
    rewrite (dropwhile_clean sp _ Hr). apply rev_involutive.
Qed.

Lemma forallb_starts_clean {A} (p sp : A -> bool) (l : list A) :
  (forall x, p x = true -> sp x = false) ->
  forallb p l = true -> starts_clean sp l.
Proof.
  intros Hp. destruct l as [|x l]; simpl; [auto|].
  intros E. apply andb_prop in E as [Ex _]. auto.
Qed.

(** X7: whitespace around an entry does not matter: a table line made of
    the digest of an encodable credential between runs of whitespace bytes
    (spaces, tabs, the carriage return and newline of a file with CRLF line
    ends) matches that credential. *)
Theorem padded_entry_matches (content line ws1 ws2 : pybytes) (pwd : pystr) :
  encodable pwd = true ->
  In line (iter_lines content) ->
  line = ws1 ++ digest_transform pwd ++ ws2 ->
  forallb bytes_isspace ws1 = true ->
  forallb bytes_isspace ws2 = true ->
  contains content pwd = true.
Proof.
  intros E Hin Hline E1 E2. apply contains_iff.
  exists (digest_transform pwd), line.
  split; [now apply ntlm_hash_ok|]. split; [assumption|].
  subst line. unfold bytes_strip.
  pose proof (digest_well_formed pwd) as Hwf.
  apply andb_prop in Hwf as [_ Hhex].
  apply strip_with_padded; try assumption.
  - exact (forallb_starts_clean _ _ _ is_HEX_not_space Hhex).
  - apply (forallb_starts_clean is_HEX); [exact is_HEX_not_space|].
    now rewrite forallb_rev.
Qed.

Lemma padded_entry_matches_witness :
  contains Examples.line_padded Scenario.password = true.
Proof.
  apply (padded_entry_matches Examples.line_padded Examples.line_padded
           [x20] [x0d; x0a] Scenario.password).
  - reflexivity.
  - now left.
  - vm_compute. reflexivity.
  - reflexivity.
  - reflexivity.
Defined.

(** * Further properties of the strength heuristic *)

Section Strength.
Context `{PyUnicode}.

Lemma existsb_incl {A} (f : A -> bool) (p q : list A) :
  incl p q -> existsb f p = true -> existsb f q = true.
Proof.
  intros Hincl E. apply existsb_exists in E as (x & Hx & Hf).
  apply existsb_exists. exists x. auto.
Qed.

Lemma existsb_same {A} (f : A -> bool) (p q : list A) :
  incl p q -> incl q p -> existsb f p = existsb f q.
Proof.
  intros Hpq Hqp.
  destruct (existsb f p) eqn:Ep, (existsb f q) eqn:Eq; try reflexivity.
  - apply (existsb_incl f p q Hpq) in Ep. congruence.
  - apply (existsb_incl f q p Hqp) in Eq. congruence.
Qed.

(** X8: adding characters to a password never lowers its rating: if every
    character of [p] occurs in [q] and [q] is at least as long, the rating
    of [q] is at least that of [p] in the order Weak, Medium, Strong. *)
Theorem strength_check_monotone (p q : pystr) :
  incl p q ->
  (List.length p <= List.length q)%nat ->
  (rank (strength_check p) <= rank (strength_check q))%nat.
Proof.
  intros Hincl Hlen. unfold strength_check.
  destruct (Nat.ltb (List.length p) 8) eqn:Lp; [apply Nat.le_0_l|].
  apply Nat.ltb_ge in Lp.
  replace (Nat.ltb (List.length q) 8) with false
    by (symmetry; apply Nat.ltb_ge; lia).
  pose proof (existsb_incl isupper p q Hincl) as Hu.
  pose proof (existsb_incl islower p q Hincl) as Hl.
  pose proof (existsb_incl isdigit p q Hincl) as Hd.
  pose proof (existsb_incl (fun c => negb (isalnum c)) p q Hincl) as Hs.
  destruct (existsb isupper p); [rewrite (Hu eq_refl)|];
    (destruct (existsb islower p); [rewrite (Hl eq_refl)|]);
    (destruct (existsb isdigit p); [rewrite (Hd eq_refl)|]);
    (destruct (existsb (fun c => negb (isalnum c)) p);
       [rewrite (Hs eq_refl)|]);
    clear Hu Hl Hd Hs;
    repeat match goal with
           | |- context [existsb ?f q] => destruct (existsb f q)
           end;
    vm_compute; lia.
Qed.

(** X9: the rating depends on the characters of a password and not on
    their order. *)
Theorem strength_check_permutation (p q : pystr) :
  Permutation p q -> strength_check p = strength_check q.
Proof.
  intros Hperm. unfold strength_check.
  rewrite (Permutation_length Hperm).
  assert (Hpq : incl p q) by (intros x; apply (Permutation_in _ Hperm)).
  assert (Hqp : incl q p)
    by (intros x; apply (Permutation_in _ (Permutation_sym Hperm))).
  now rewrite (existsb_same isupper p q), (existsb_same islower p q),
    (existsb_same isdigit p q),
    (existsb_same (fun c => negb (isalnum c)) p q).
Qed.

(** X10: a password is rated "Weak" exactly when it is shorter than 8
    characters, or has neither an uppercase nor a lowercase character, or
    has neither a digit nor a character that is not alphanumeric; so a
    password of digits and symbols alone, or of letters alone, is "Weak"
    whatever its length. *)
Theorem strength_check_weak (password : pystr) :
  strength_check password = "Weak" <->
  (List.length password < 8)%nat \/
  (existsb isupper password = false /\ existsb islower password = false) \/
  (existsb isdigit password = false /\
   forallb isalnum password = true).
Proof.
  assert (Hsp : existsb (fun c => negb (isalnum c)) password
                = negb (forallb isalnum password)).
  { induction password as [|c cs IH]; [reflexivity|].
    simpl. rewrite IH. now destruct (isalnum c). }
  unfold strength_check. rewrite Hsp.
  destruct (Nat.ltb (List.length password) 8) eqn:Hlen.
  - apply Nat.ltb_lt in Hlen. tauto.
  - apply Nat.ltb_ge in Hlen.
    destruct (existsb isupper password), (existsb islower password),
      (existsb isdigit password), (forallb isalnum password); simpl;
      (split; [intros E; try discriminate E; auto
              | intros [?|[[? ?]|[? ?]]]; try lia; try discriminate;
                reflexivity]).
Qed.

Lemma counter_get_add (x y : string) (c : list (string * nat)) :
  counter_get x (counter_add y c) =
  if String.eqb x y then S (counter_get x c) else counter_get x c.
Proof.
  induction c as [|[z n] c IH]; simpl.
  - rewrite String.eqb_sym. now destruct (String.eqb y x).
  - destruct (String.eqb_spec y z) as [->|Hyz]; simpl.
    + now destruct (String.eqb x z).
    + rewrite IH. destruct (String.eqb_spec x z) as [->|Hxz]; [|reflexivity].
      destruct (String.eqb_spec z y); congruence.
Qed.

Lemma counter_get_fold (x : string) (items : list string)
    (c : list (string * nat)) :
  counter_get x (fold_left (fun c y => counter_add y c) items c) =
  (List.length (filter (String.eqb x) items) + counter_get x c)%nat.
Proof.
  revert c. induction items as [|y items IH]; intros c; [reflexivity|].
  simpl. rewrite IH, counter_get_add.
  destruct (String.eqb x y); simpl; lia.
Qed.

Lemma filter_cons_if {A} (f : A -> bool) (a : A) (l : list A) :
  filter f (a :: l) = if f a then a :: filter f l else filter f l.
Proof. reflexivity. Qed.

Lemma strength_check_cases (p : pystr) :
  strength_check p = "Weak" \/
  (strength_check p = "Medium" /\ Nat.leb 8 (List.length p) = true) \/
  (strength_check p = "Strong" /\ Nat.leb 8 (List.length p) = true).
Proof.
  unfold strength_check.
  destruct (Nat.ltb (List.length p) 8) eqn:Hlen; [now left|].
  apply Nat.ltb_ge, Nat.leb_le in Hlen.
  destruct (existsb isupper p && existsb islower p && existsb isdigit p
            && existsb (fun c => negb (isalnum c)) p); [auto|].
  destruct ((existsb isupper p || existsb islower p)
            && (existsb isdigit p || existsb (fun c => negb (isalnum c)) p));
    auto.
Qed.

(** X11: the strength counts written to the report add up to the number
    of passwords, and the passwords rated "Medium" or "Strong" are never
    more than the passwords of at least 8 characters that the length
    analysis counts. *)
Theorem strength_counts_total (passwords : list pystr) :
  let c := strength_counts passwords in
  (counter_get "Weak" c + counter_get "Medium" c + counter_get "Strong" c
   = List.length passwords)%nat /\
  (counter_get "Medium" c + counter_get "Strong" c
   <= count_ge8 passwords)%nat.
Proof.
  unfold strength_counts, Counter, count_ge8, lengths. cbv zeta.
  rewrite !counter_get_fold. simpl counter_get. rewrite !Nat.add_0_r.
  induction passwords as [|p ps [IH1 IH2]]; [simpl; lia|].
  change (map strength_check (p :: ps))
    with (strength_check p :: map strength_check ps).
  change (map (@List.length N) (p :: ps))
    with (List.length p :: map (@List.length N) ps).
  rewrite !filter_cons_if.
  change (List.length (p :: ps)) with (S (List.length ps)).
  remember (filter (String.eqb "Weak") (map strength_check ps)) as lW.
  remember (filter (String.eqb "Medium") (map strength_check ps)) as lM.
  remember (filter (String.eqb "Strong") (map strength_check ps)) as lS.
  remember (filter (fun l => Nat.leb 8 l) (map (@List.length N) ps)) as lL.
  destruct (strength_check_cases p) as [Hs|[[Hs Hl]|[Hs Hl]]];
    rewrite Hs; try rewrite Hl;
    destruct (Nat.leb 8 (List.length p)); simpl; lia.
Qed.

End Strength.

Lemma strength_check_monotone_witness :
  (rank (strength_check (str_of_string "Passw0rd"))
   <= rank (strength_check (str_of_string "Passw0rd!")))%nat.
Proof.
  apply strength_check_monotone; [|simpl; lia].
  intros c. simpl. tauto.
Defined.

Lemma strength_check_permutation_witness :
  strength_check (str_of_string "!Passw0rd")
  = strength_check (str_of_string "Passw0rd!").
Proof.
  apply strength_check_permutation.
  change (str_of_string "Passw0rd!")
    with (str_of_string "Passw0rd" ++ str_of_string "!").
  apply (Permutation_cons_append (str_of_string "Passw0rd") 33).
Defined.

(** * Further properties of the entry point *)

Lemma dropwhile_nil_all {A} (sp : A -> bool) (l : list A) :
  dropwhile sp l = [] -> forallb sp l = true.
Proof.
  induction l as [|x l IH]; simpl; [reflexivity|].
  destruct (sp x); [exact IH | discriminate].
Qed.

Lemma dropwhile_app {A} (sp : A -> bool) (l ws : list A) :
  dropwhile sp (l ++ ws) =
  match dropwhile sp l with
  | [] => dropwhile sp ws
  | m => m ++ ws
  end.
Proof.
  induction l as [|x l IH]; simpl; [now destruct (dropwhile sp ws)|].
  destruct (sp x); [exact IH | reflexivity].
Qed.

(** Whitespace at the end of a string does not change what [strip]
    returns. *)
Lemma strip_with_app_space {A} (sp : A -> bool) (l ws : list A) :
  forallb sp ws = true -> strip_with sp (l ++ ws) = strip_with sp l.
Proof.
  intros E. unfold strip_with. rewrite dropwhile_app.
  assert (Hws : dropwhile sp ws = []).
  { rewrite <- (app_nil_r ws). now rewrite dropwhile_all. }
  destruct (dropwhile sp l) as [|x m] eqn:Hm.
  - now rewrite Hws.
  - rewrite rev_app_distr, dropwhile_all by now rewrite forallb_rev.
    reflexivity.
Qed.

Lemma readlines_from_cons (cur : pystr) (c : N) (rest : pystr) :
  readlines_from cur (c :: rest) =
  if c =? 0x0A then (cur ++ [0x0A]) :: readlines_from [] rest
  else if c =? 0x0D then
    (cur ++ [0x0A]) :: match rest with
                       | c' :: rest' =>
                           if c' =? 0x0A then readlines_from [] rest'
                           else readlines_from [] rest
                       | [] => readlines_from [] rest
                       end
  else readlines_from (cur ++ [c]) rest.
Proof. reflexivity. Qed.

(** A line handed over by [readlines] is a run of characters of the text
    without line feed or carriage return, followed by at most a line
    feed. *)
Lemma readlines_from_shape (P : N -> Prop) (n : nat) :
  forall text cur,
    (List.length text <= n)%nat ->
    newline_free cur -> Forall P cur -> Forall P text ->
    Forall (fun line =>
              exists body,
                (line = body ++ [0x0A] \/ line = body) /\
                newline_free body /\ Forall P body)
           (readlines_from cur text).
Proof.
  induction n as [|n IH]; intros [|c rest] cur Hlen Hcur HPcur HP;
    try (simpl in Hlen; lia).
  - simpl. destruct cur; constructor; [|constructor]. eauto.
  - simpl. destruct cur; constructor; [|constructor]. eauto.
  - rewrite readlines_from_cons.
    inversion HP as [|? ? HPc HPrest]; subst.
    destruct (c =? 10) eqn:E10.
    + constructor; [eauto|].
      apply IH; [simpl in Hlen; lia | constructor | constructor | assumption].
    + destruct (c =? 13) eqn:E13.
      * constructor; [eauto|].
        destruct rest as [|c' rest'];
          [apply IH; [simpl; lia | constructor | constructor | constructor]|].
        inversion HPrest; subst.
        destruct (c' =? 10);
          apply IH; simpl in *; try lia; try constructor; assumption.
      * apply IH; [simpl in Hlen; lia | | |assumption].
        -- apply Forall_app. split; [assumption|].
           constructor; [now rewrite E10, E13 | constructor].
        -- apply Forall_app. split; [assumption|].
           constructor; [assumption | constructor].
Qed.

Lemma passwords_of_text_shape (P : N -> Prop) (text p : pystr) :
  Forall P text ->
  In p (passwords_of_text text) ->
  p <> [] /\ str_strip p = p /\ newline_free p /\ Forall P p.
Proof.
  intros HP Hin. unfold passwords_of_text in Hin.
  apply in_map_iff in Hin as (line & <- & Hin).
  apply filter_In in Hin as [Hin Hne].
  split; [now destruct (str_strip line)|].
  split; [apply strip_with_idempotent|].
  pose proof (readlines_from_shape P (List.length text) text []
                (le_n _) (Forall_nil _) (Forall_nil _) HP) as Hshape.
  rewrite Forall_forall in Hshape.
  destruct (Hshape line Hin) as (body & Hline & Hnl & HPb).
  assert (E : str_strip line = str_strip body).
  { destruct Hline as [->| ->]; [|reflexivity].
    now apply strip_with_app_space. }
  rewrite E. split; now apply strip_with_Forall.
Qed.

Section EntryPointFurther.
Context `{PyUnicode}.

(** X12: when the entry point reaches the analysis, the credential file
    was read and gave at least one credential; the credentials analysed are
    the stripped non-blank lines of the file, each non-empty, trimmed and
    free of line ends; the classification is [check_rainbow_table] on those
    credentials and the directory "rainbow", and every credential gets a
    strength rating. *)
Theorem main_analysis (fs : filesystem) (tr tr' : list event)
    (a : analysis) :
  main fs tr = (Ok (Some a), tr') ->
  exists text,
    read_text fs "combined_output.txt" = Ok text /\
    let passwords := passwords_of_text text in
    passwords <> [] /\
    Forall (fun p => p <> [] /\ str_strip p = p /\ newline_free p)
           passwords /\
    check_rainbow_table fs passwords "rainbow"
      (tr ++ [Open "combined_output.txt"]) = (Ok (cracked a), tr') /\
    strengths a = map strength_check passwords.
Proof.
  unfold main.
  destruct (main_try fs tr) as [[pw|e] t1] eqn:Htry;
    [|destruct (is_FileNotFoundError e); [intros [=]|];
      destruct (is_ValueError e); intros [=]].
  destruct (analyze_passwords fs pw t1) as [[a0|e] t2] eqn:Ha;
    intros [= <- <-].
  unfold main_try, bind, open_text, ret, lift in Htry.
  destruct (read_text fs "combined_output.txt") as [text|e] eqn:Hr;
    [|discriminate Htry].
  destruct (nonempty (passwords_of_text text)) eqn:Hne; [|discriminate Htry].
  injection Htry as <- <-.
  unfold analyze_passwords, bind, ret in Ha.
  destruct (check_rainbow_table fs (passwords_of_text text) "rainbow"
              (tr ++ [Open "combined_output.txt"])) as [[d|e] t'] eqn:Hc;
    [|discriminate Ha].
  injection Ha as <- <-.
  exists text. split; [reflexivity|]. cbv zeta.
  split; [intros E; now rewrite E in Hne|]. split.
  - apply Forall_forall. intros q Hq.
    destruct (passwords_of_text_shape (fun _ => True) text q)
      as (? & ? & ? & _); [now apply Forall_forall | assumption | auto].
  - split; [exact Hc | reflexivity].
Qed.


End EntryPointFurther.

Lemma main_analysis_witness :
  exists text,
    read_text MainExamples.fs_main "combined_output.txt" = Ok text /\
    let passwords := passwords_of_text text in
    passwords <> [] /\
    Forall (fun p => p <> [] /\ str_strip p = p /\ newline_free p)
           passwords /\
    check_rainbow_table MainExamples.fs_main passwords "rainbow"
      ([] ++ [Open "combined_output.txt"])
    = (Ok (cracked
             {| cracked := [(Scenario.password, "t1.hash");
                            (Scenario.abc123, "t1.hash")];
                strengths := ["Weak"; "Weak"] |}),
       [Open "combined_output.txt"; Listdir "rainbow";
        Open "rainbow/t1.hash"]) /\
    strengths {| cracked := [(Scenario.password, "t1.hash");
                             (Scenario.abc123, "t1.hash")];
                 strengths := ["Weak"; "Weak"] |}
    = map strength_check passwords.
Proof.
  apply (main_analysis MainExamples.fs_main []).
  vm_compute. reflexivity.
Defined.


(** * Further properties of ingestion *)

Lemma break_free_newline_free (x : pystr) : break_free x -> newline_free x.
Proof.
  unfold break_free, newline_free. apply Forall_impl. intros c Hc.
  destruct (c =? 10) eqn:E10; [apply N.eqb_eq in E10; now subst|].
  destruct (c =? 13) eqn:E13; [apply N.eqb_eq in E13; now subst|].
  reflexivity.
Qed.

Lemma readlines_from_line (x : pystr) :
  newline_free x ->
  forall cur, cur ++ x <> [] -> readlines_from cur x = [cur ++ x].
Proof.
  induction 1 as [|c x Hc Hx IH]; intros cur Hne.
  - simpl. rewrite app_nil_r in *. destruct cur; [contradiction | reflexivity].
  - rewrite readlines_from_cons.
    apply orb_false_elim in Hc as [-> ->].
    rewrite IH, <- app_assoc; [reflexivity|].
    rewrite <- app_assoc. exact Hne.
Qed.

Lemma readlines_from_newline (x tail : pystr) :
  newline_free x ->
  forall cur,
    readlines_from cur (x ++ newline ++ tail)
    = (cur ++ x ++ [0x0A]) :: readlines_from [] tail.
Proof.
  induction 1 as [|c x Hc Hx IH]; intros cur.
  - reflexivity.
  - change ((c :: x) ++ newline ++ tail) with (c :: (x ++ newline ++ tail)).
    rewrite readlines_from_cons.
    apply orb_false_elim in Hc as [-> ->].
    rewrite IH, <- app_assoc. reflexivity.
Qed.

Lemma passwords_of_text_cons (line : pystr) (text : pystr)
    (rest : list pystr) :
  readlines text = line :: rest ->
  passwords_of_text text =
  (if nonempty (str_strip line) then [str_strip line] else [])
  ++ map str_strip (filter (fun l => nonempty (str_strip l)) rest).
Proof.
  intros Hr. unfold passwords_of_text. rewrite Hr. simpl.
  now destruct (nonempty (str_strip line)).
Qed.

(** Reading back a text of non-empty trimmed lines without line boundary,
    joined by line feeds, gives those lines. *)
Lemma passwords_of_join (ls : list pystr) :
  Forall (fun x => x <> [] /\ break_free x /\ str_strip x = x) ls ->
  passwords_of_text (join newline ls) = ls.
Proof.
  induction 1 as [|x ls (Hne & Hbf & Hst) Hls IH]; [reflexivity|].
  apply break_free_newline_free in Hbf.
  destruct ls as [|y ls].
  - rewrite (passwords_of_text_cons x _ []).
    + rewrite Hst. destruct x; [contradiction | reflexivity].
    + simpl. now apply (readlines_from_line x Hbf []).
  - change (join newline (x :: y :: ls))
      with (x ++ newline ++ join newline (y :: ls)).
    rewrite (passwords_of_text_cons (x ++ [10]) _
               (readlines (join newline (y :: ls)))).
    + assert (E : str_strip (x ++ [10]) = x)
        by (rewrite <- Hst at 2; now apply strip_with_app_space).
      rewrite E. fold (passwords_of_text (join newline (y :: ls))).
      rewrite IH. destruct x; [contradiction | reflexivity].
    + unfold readlines. now rewrite readlines_from_newline.
Qed.

Lemma splitlines_from_app_newline_conv (n : nat) :
  forall a cur b line,
    (List.length a <= n)%nat ->
    In line (splitlines_from cur a) \/ In line (splitlines b) ->
    In line (splitlines_from cur (a ++ newline ++ b)).
Proof.
  assert (Hnl : forall cur b,
            splitlines_from cur (newline ++ b) = cur :: splitlines b)
    by (intros cur b; now destruct b).
  induction n as [|n IH]; intros [|c a] cur b line Hlen Hin;
    try (simpl in Hlen; lia).
  - change ([] ++ newline ++ b) with (newline ++ b). rewrite Hnl.
    destruct Hin as [Hin|Hin]; [|now right].
    simpl in Hin. destruct cur; [destruct Hin|].
    destruct Hin as [<-|[]]. now left.
  - change ([] ++ newline ++ b) with (newline ++ b). rewrite Hnl.
    destruct Hin as [Hin|Hin]; [|now right].
    simpl in Hin. destruct cur; [destruct Hin|].
    destruct Hin as [<-|[]]. now left.
  - change ((c :: a) ++ newline ++ b) with (c :: (a ++ newline ++ b)).
    rewrite splitlines_from_cons in *.
    destruct (is_linebreak c) eqn:Hc.
    + destruct Hin as [[<-|Hin]|Hin]; [now left | |]; right.
      * destruct a as [|c' a]; [destruct Hin|].
        change ((c' :: a) ++ newline ++ b)
          with (c' :: (a ++ newline ++ b)).
        cbv beta iota. cbv beta iota in Hin.
        destruct ((c =? 13) && (c' =? 10)).
        -- apply IH; [simpl in Hlen; lia | now left].
        -- apply (IH (c' :: a)); [simpl in *; lia | now left].
      * destruct a as [|c' a].
        -- change ([] ++ newline ++ b) with (0x0A :: b). cbv beta iota.
           change (10 =? 10) with true.
           destruct (c =? 13); simpl andb; cbv beta iota;
             [assumption|].
           change (10 :: b) with (newline ++ b). rewrite Hnl. now right.
        -- change ((c' :: a) ++ newline ++ b)
             with (c' :: (a ++ newline ++ b)).
           cbv beta iota.
           destruct ((c =? 13) && (c' =? 10)).
           ++ apply IH; [simpl in Hlen; lia | now right].
           ++ apply (IH (c' :: a)); [simpl in *; lia | now right].
    + apply IH; [simpl in Hlen; lia | assumption].
Qed.

(** A line of one of the combined contents is a line of the combined
    text. *)
Lemma splitlines_join_In_conv (contents : list pystr)
    (content line : pystr) :
  In content contents ->
  In line (splitlines content) ->
  In line (splitlines (join newline contents)).
Proof.
  induction contents as [|x contents IH]; [intros []|].
  intros Hc Hl. destruct contents as [|y contents].
  - destruct Hc as [<-|[]]. exact Hl.
  - change (join newline (x :: y :: contents))
      with (x ++ newline ++ join newline (y :: contents)).
    apply (splitlines_from_app_newline_conv (List.length x)); [lia|].
    destruct Hc as [<-|Hc]; [now left | right; now apply IH].
Qed.

Lemma combine_content_app (fs : filesystem) (input_folder : string)
    (names1 names2 : list string) :
  combine_content fs input_folder (names1 ++ names2)
  = combine_content fs input_folder names1
    ++ combine_content fs input_folder names2.
Proof. unfold combine_content. apply flat_map_app. Qed.

Lemma combine_content_ignored (fs : filesystem) (input_folder : string)
    (names : list string) :
  combine_content fs input_folder names = [] <->
  forall name, In name names -> ignored fs input_folder name = true.
Proof.
  unfold ignored. induction names as [|name names IH].
  - split; [intros _ ? [] | reflexivity].
  - change (name :: names) with ([name] ++ names) at 1.
    rewrite combine_content_app. unfold combine_content at 1. simpl flat_map.
    rewrite app_nil_r. split.
    + intros E. apply app_eq_nil in E as [E1 E2].
      intros n [<-|Hn]; [|now apply IH].
      destruct (isfile fs (path_join input_folder name)); [|reflexivity].
      now rewrite E1.
    + intros Hall. rewrite (proj2 IH) by (intros; apply Hall; now right).
      rewrite app_nil_r. specialize (Hall name (or_introl eq_refl)).
      destruct (isfile fs (path_join input_folder name)); [|reflexivity].
      simpl in Hall.
      now destruct (convert_file fs name (path_join input_folder name)).
Qed.

Section IngestionFurther.
Variable fs : filesystem.
Variable list_set : list pystr -> list pystr.
Hypothesis list_set_NoDup : forall l, NoDup (list_set l).
Hypothesis list_set_In : forall l x, In x (list_set l) <-> In x l.

(** X14: what [convert_and_combine] writes is what the entry point of
    process.py reads back: the credentials obtained from the written text
    by line 209 are the unique cleaned lines, in the order written, with
    no duplicate and with no line lost or split. *)
Theorem ingestion_round_trip (input_folder output_file : string)
    (written : pystr) :
  convert_and_combine fs list_set input_folder output_file
    = Ok (Some written) ->
  exists names,
    listdir fs input_folder = Ok names /\
    passwords_of_text written
    = list_set (clean_lines
                  (join newline (combine_content fs input_folder names))) /\
    NoDup (passwords_of_text written).
Proof.
  unfold convert_and_combine. intros Hrun.
  destruct (listdir fs input_folder) as [names|e]; [|discriminate].
  exists names. split; [reflexivity|].
  destruct (nonempty (combine_content fs input_folder names));
    [|discriminate].
  destruct (open_w fs output_file); [|discriminate].
  injection Hrun as <-.
  set (combined_text := join newline (combine_content fs input_folder names)).
  rewrite passwords_of_join; [split; [reflexivity | apply list_set_NoDup]|].
  apply Forall_forall. intros x Hx. apply (proj1 (list_set_In _ _)) in Hx.
  pose proof (clean_lines_break_free combined_text) as Hc.
  rewrite Forall_forall in Hc. destruct (Hc x Hx) as [Hne Hbf].
  repeat split; try assumption.
  apply clean_lines_In in Hx as (_ & l & _ & ->).
  apply strip_with_idempotent.
Qed.

(** X15: ingestion loses no credential: every line of the content of a
    converted file that is not blank appears, stripped, among the lines
    written. *)
Theorem ingestion_complete (input_folder output_file : string)
    (written : pystr) (names : list string) (file_name : string)
    (content input_line : pystr) :
  convert_and_combine fs list_set input_folder output_file
    = Ok (Some written) ->
  listdir fs input_folder = Ok names ->
  In file_name names ->
  isfile fs (path_join input_folder file_name) = true ->
  In content (convert_file fs file_name (path_join input_folder file_name)) ->
  In input_line (splitlines content) ->
  str_strip input_line <> [] ->
  In (str_strip input_line) (splitlines written).
Proof.
  unfold convert_and_combine. intros Hrun Hl Hname Hfile Hcontent Hline Hne.
  rewrite Hl in Hrun.
  destruct (nonempty (combine_content fs input_folder names));
    [|discriminate].
  destruct (open_w fs output_file); [|discriminate].
  injection Hrun as <-.
  set (combined_text := join newline (combine_content fs input_folder names)).
  assert (Hall : Forall (fun x => x <> [] /\ break_free x)
                   (list_set (clean_lines combined_text))).
  { apply Forall_forall. intros x Hx. apply (proj1 (list_set_In _ _)) in Hx.
    pose proof (clean_lines_break_free combined_text) as Hc.
    rewrite Forall_forall in Hc. now apply Hc. }
  rewrite (splitlines_join _ Hall).
  apply list_set_In, clean_lines_In. split; [assumption|].
  exists input_line. split; [|reflexivity].
  apply (splitlines_join_In_conv _ content); [|assumption].
  apply combine_content_In. eauto.
Qed.

(** X16: an entry that cannot be converted does not stop ingestion: a
    directory entry that is not a regular file, is of another kind than
    .txt, .csv and .xlsx, or raises when read, adds nothing, and the output
    is the one of the folder without that entry. *)
Theorem ingestion_skips_entry (fs' : filesystem)
    (input_folder output_file : string) (before after : list string)
    (entry : string) :
  listdir fs input_folder = Ok (before ++ entry :: after) ->
  listdir fs' input_folder = Ok (before ++ after) ->
  ignored fs input_folder entry = true ->
  (forall p, isfile fs p = isfile fs' p) ->
  (forall p, read_text_replace fs p = read_text_replace fs' p) ->
  (forall p, read_csv fs p = read_csv fs' p) ->
  (forall p, read_excel_as_csv fs p = read_excel_as_csv fs' p) ->
  (forall p, open_w fs p = open_w fs' p) ->
  convert_and_combine fs list_set input_folder output_file
  = convert_and_combine fs' list_set input_folder output_file.
Proof.
  intros Hl Hl' Hign Hi Ht Hc Hx Hw.
  unfold convert_and_combine. rewrite Hl, Hl', Hw.
  assert (Hconv : forall names,
            combine_content fs input_folder names
            = combine_content fs' input_folder names).
  { intros names. unfold combine_content. apply flat_map_ext. intros name.
    rewrite Hi. unfold convert_file. now rewrite Ht, Hc, Hx. }
  assert (E : combine_content fs input_folder (before ++ entry :: after)
              = combine_content fs' input_folder (before ++ after)).
  { change (entry :: after) with ([entry] ++ after).
    rewrite !combine_content_app.
    rewrite (proj2 (combine_content_ignored fs input_folder [entry]))
      by (intros n [<-|[]]; exact Hign).
    now rewrite <- !Hconv. }
  now rewrite E.
Qed.

(** X17: nothing is written exactly when no entry of the folder could be
    converted: the function returns without an output text if and only if
    the folder was enumerated and every entry was passed over. A folder
    whose only convertible file is empty still gets an output. *)
Theorem ingestion_writes_nothing_iff (input_folder output_file : string) :
  convert_and_combine fs list_set input_folder output_file = Ok None <->
  exists names,
    listdir fs input_folder = Ok names /\
    forall name, In name names -> ignored fs input_folder name = true.
Proof.
  unfold convert_and_combine. split.
  - destruct (listdir fs input_folder) as [names|e]; [|discriminate].
    destruct (combine_content fs input_folder names) eqn:Hc; simpl.
    + intros _. exists names. split; [reflexivity|].
      now apply combine_content_ignored.
    + destruct (open_w fs output_file); discriminate.
  - intros (names & -> & Hall).
    apply combine_content_ignored in Hall. now rewrite Hall.
Qed.

End IngestionFurther.

Lemma ingestion_round_trip_witness :
  exists names,
    listdir Scenarios.fs_data "data" = Ok names /\
    passwords_of_text IngestionExamples.written
    = Scenarios.enumerate_set
        (clean_lines
           (join newline (combine_content Scenarios.fs_data "data" names))) /\
    NoDup (passwords_of_text IngestionExamples.written).
Proof.
  apply (ingestion_round_trip Scenarios.fs_data Scenarios.enumerate_set
           (NoDup_nodup pystr_eq_dec) (nodup_In pystr_eq_dec)
           "data" "combined_output.txt").
  vm_compute. reflexivity.
Defined.

Lemma ingestion_complete_witness :
  In (str_strip (str_of_string " password "))
     (splitlines IngestionExamples.written).
Proof.
  apply (ingestion_complete Scenarios.fs_data Scenarios.enumerate_set
           (nodup_In pystr_eq_dec)
           "data" "combined_output.txt" IngestionExamples.written
           ["a.txt"; "b.csv"; "notes.md"; "sub"] "a.txt"
           (str_of_string " password " ++ [0x0D; 0x0A]
            ++ str_of_string "abc123" ++ [0x0A; 0x0A]
            ++ str_of_string "password")).
  - vm_compute. reflexivity.
  - reflexivity.
  - now left.
  - reflexivity.
  - now left.
  - now left.
  - vm_compute. discriminate.
Defined.

Lemma ingestion_skips_entry_witness :
  convert_and_combine Scenarios.fs_data Scenarios.enumerate_set
    "data" "combined_output.txt"
  = convert_and_combine IngestionExamples.fs_data_less
      Scenarios.enumerate_set "data" "combined_output.txt".
Proof.
  apply (ingestion_skips_entry Scenarios.fs_data Scenarios.enumerate_set
           IngestionExamples.fs_data_less "data" "combined_output.txt"
           ["a.txt"; "b.csv"] ["sub"] "notes.md"); reflexivity.
Defined.

(** * The dictionary check *)

Section DictionaryProperties.
Variable lower : pystr -> pystr.
Variable fs : filesystem.

Lemma check_predictable_filter (passwords dictionary_words : list pystr) :
  check_predictable lower passwords dictionary_words =
  filter (fun pwd => existsb (pystr_eqb (lower pwd)) dictionary_words)
         passwords.
Proof.
  unfold check_predictable.
  assert (H : forall acc,
            fold_left (fun predictable pwd =>
                         if existsb (pystr_eqb (lower pwd)) dictionary_words
                         then predictable ++ [pwd] else predictable)
                      passwords acc
            = acc ++ filter (fun pwd =>
                               existsb (pystr_eqb (lower pwd))
                                       dictionary_words) passwords).
  { induction passwords as [|pwd ps IH]; intros acc; simpl.
    - now rewrite app_nil_r.
    - rewrite IH. destruct (existsb _ dictionary_words); [|reflexivity].
      now rewrite <- app_assoc. }
  apply H.
Qed.

(** X18: the dictionary check is case-insensitive on both sides and keeps
    the credentials as they come: with a word list that reads, the
    predictable passwords are the credentials, in their order and with
    their repetitions, whose lowercase form is the lowercase form of a
    stripped line of the word list. A word list that does not exist makes
    no password predictable and raises nothing; any other error raised by
    reading it leaves the function. *)
Theorem predictable_passwords_spec (passwords : list pystr) :
  (forall text, read_text fs dictionary_path = Ok text ->
     predictable_passwords lower fs passwords =
     Ok (filter (fun pwd =>
                   existsb (fun line =>
                              pystr_eqb (lower pwd) (lower (str_strip line)))
                           (readlines text))
                passwords)) /\
  (read_text fs dictionary_path = Raise FileNotFoundError ->
   predictable_passwords lower fs passwords = Ok []) /\
  (forall e, read_text fs dictionary_path = Raise e ->
     is_FileNotFoundError e = false ->
     predictable_passwords lower fs passwords = Raise e).
Proof.
  unfold predictable_passwords, load_dictionary. split; [|split].
  - intros text ->. rewrite check_predictable_filter. f_equal.
    apply filter_ext. intros pwd.
    induction (readlines text) as [|line ls IH]; [reflexivity|].
    simpl. now rewrite IH.
  - intros ->. simpl. rewrite check_predictable_filter.
    now induction passwords.
  - intros e -> ->. reflexivity.
Qed.

End DictionaryProperties.

Lemma predictable_passwords_spec_witness :
  predictable_passwords ascii_lower IngestionExamples.fs_words
    [str_of_string "PASSWORD"; str_of_string "abc";
     str_of_string "Hello"; str_of_string "PASSWORD"]
  = Ok [str_of_string "PASSWORD"; str_of_string "Hello";
        str_of_string "PASSWORD"]
  /\ predictable_passwords ascii_lower Scenarios.fs_t1
       [str_of_string "password"] = Ok [].
Proof.
  split.
  - destruct (predictable_passwords_spec ascii_lower
                IngestionExamples.fs_words
                [str_of_string "PASSWORD"; str_of_string "abc";
                 str_of_string "Hello"; str_of_string "PASSWORD"])
      as (Hread & _ & _).
    rewrite (Hread _ eq_refl). vm_compute. reflexivity.
  - destruct (predictable_passwords_spec ascii_lower Scenarios.fs_t1
                [str_of_string "password"]) as (_ & Hmissing & _).
    apply Hmissing. reflexivity.
Defined.

(** * Ingestion run on its own output, and read errors of the entry point *)

(** When an entry is passed over. *)
Lemma ignored_iff (fs : filesystem) (input_folder file_name : string) :
  let file_path := path_join input_folder file_name in
  ignored fs input_folder file_name = true <->
  isfile fs file_path = false \/
  (endswith file_name ".txt" = true /\
   exists e, read_text_replace fs file_path = Raise e) \/
  (endswith file_name ".txt" = false /\ endswith file_name ".csv" = true /\
   exists e, read_csv fs file_path = Raise e) \/
  (endswith file_name ".txt" = false /\ endswith file_name ".csv" = false /\
   endswith file_name ".xlsx" = true /\
   exists e, read_excel_as_csv fs file_path = Raise e) \/
  (endswith file_name ".txt" = false /\ endswith file_name ".csv" = false /\
   endswith file_name ".xlsx" = false).
Proof.
  cbv zeta. unfold ignored, convert_file.
  destruct (isfile fs (path_join input_folder file_name)); simpl;
    [|tauto].
  destruct (endswith file_name ".txt");
    [destruct (read_text_replace fs _); simpl|
     destruct (endswith file_name ".csv");
       [destruct (read_csv fs _); simpl|
        destruct (endswith file_name ".xlsx");
          [destruct (read_excel_as_csv fs _); simpl|simpl]]];
    split; intros Hyp; try discriminate Hyp; try reflexivity;
    try (repeat match goal with
                | H : _ \/ _ |- _ => destruct H
                | H : _ /\ _ |- _ => destruct H
                | H : exists _, _ |- _ => destruct H
                end; congruence);
    eauto 10.
Qed.

Section Reingestion.
Variable fs : filesystem.
Variable list_set : list pystr -> list pystr.
Hypothesis list_set_NoDup : forall l, NoDup (list_set l).
Hypothesis list_set_In : forall l x, In x (list_set l) <-> In x l.

Lemma clean_lines_join (ls : list pystr) :
  Forall (fun x => x <> [] /\ break_free x /\ str_strip x = x) ls ->
  clean_lines (join newline ls) = ls.
Proof.
  intros Hall. unfold clean_lines. rewrite splitlines_join.
  - induction Hall as [|x ls (Hne & _ & Hst) _ IH]; [reflexivity|].
    simpl. rewrite Hst. destruct x; [contradiction|]. simpl.
    now rewrite IH, Hst.
  - revert Hall. apply Forall_impl. tauto.
Qed.

(** X19: ingestion is idempotent: run on a folder whose one entry is a
    text file holding the output of a first run, [convert_and_combine]
    writes the same lines again (in the order its set enumeration gives
    them). *)
Theorem ingestion_idempotent (fs2 : filesystem)
    (input_folder output_file folder2 output2 file_name : string)
    (written : pystr) :
  convert_and_combine fs list_set input_folder output_file
    = Ok (Some written) ->
  listdir fs2 folder2 = Ok [file_name] ->
  isfile fs2 (path_join folder2 file_name) = true ->
  endswith file_name ".txt" = true ->
  read_text_replace fs2 (path_join folder2 file_name) = Ok written ->
  open_w fs2 output2 = Ok tt ->
  exists written2,
    convert_and_combine fs2 list_set folder2 output2 = Ok (Some written2) /\
    splitlines written2 = list_set (splitlines written) /\
    forall line, In line (splitlines written2) <-> In line (splitlines written).
Proof.
  intros Hrun Hl2 Hf2 Hext Hread Hw.
  assert (Hclean : exists ls,
            written = join newline ls /\
            Forall (fun x => x <> [] /\ break_free x /\ str_strip x = x) ls).
  { unfold convert_and_combine in Hrun.
    destruct (listdir fs input_folder) as [names|e]; [|discriminate].
    destruct (nonempty (combine_content fs input_folder names));
      [|discriminate].
    destruct (open_w fs output_file); [|discriminate].
    injection Hrun as <-. eexists. split; [reflexivity|].
    apply Forall_forall. intros x Hx. apply (proj1 (list_set_In _ _)) in Hx.
    pose proof (clean_lines_break_free
                  (join newline (combine_content fs input_folder names)))
      as Hc.
    rewrite Forall_forall in Hc. destruct (Hc x Hx) as [Hne Hbf].
    repeat split; try assumption.
    apply clean_lines_In in Hx as (_ & l & _ & ->).
    apply strip_with_idempotent. }
  destruct Hclean as (ls & -> & Hls).
  assert (Hweak : Forall (fun x => x <> [] /\ break_free x) ls)
    by (revert Hls; apply Forall_impl; tauto).
  unfold convert_and_combine. rewrite Hl2.
  unfold combine_content. simpl flat_map. rewrite Hf2.
  unfold convert_file. rewrite Hext, Hread. simpl app. simpl nonempty.
  cbv iota. rewrite Hw. simpl join at 1.
  rewrite (clean_lines_join ls Hls).
  eexists. split; [reflexivity|].
  assert (Hls2 : Forall (fun x => x <> [] /\ break_free x) (list_set ls)).
  { apply Forall_forall. intros x Hx. apply (proj1 (list_set_In _ _)) in Hx.
    rewrite Forall_forall in Hweak. now apply Hweak. }
  rewrite (splitlines_join _ Hls2), (splitlines_join _ Hweak).
  split; [reflexivity|]. intros line. apply list_set_In.
Qed.

End Reingestion.

Lemma ingestion_idempotent_witness :
  exists written2,
    convert_and_combine ReingestExamples.fs_again Scenarios.enumerate_set
      "again" "out.txt" = Ok (Some written2) /\
    splitlines written2
      = Scenarios.enumerate_set (splitlines IngestionExamples.written) /\
    forall line,
      In line (splitlines written2)
      <-> In line (splitlines IngestionExamples.written).
Proof.
  apply (ingestion_idempotent Scenarios.fs_data Scenarios.enumerate_set
           (nodup_In pystr_eq_dec) ReingestExamples.fs_again
           "data" "combined_output.txt" "again" "out.txt"
           "combined_output.txt" IngestionExamples.written);
    [vm_compute; reflexivity | reflexivity ..].
Defined.

Section EntryPointErrors.
Context `{PyUnicode}.

(** X20: when the credential file cannot be read, the entry point opens
    nothing else: a missing file and a file that does not decode (a
    [ValueError]) are each logged and end the run without analysis, and any
    other error leaves the program unhandled. *)
Theorem main_read_error (fs : filesystem) (tr : list event) (e : exn) :
  read_text fs "combined_output.txt" = Raise e ->
  main fs tr =
  if is_FileNotFoundError e
  then (Ok None,
        tr ++ [Open "combined_output.txt"; LogError PasswordsFileNotFound])
  else if is_ValueError e
  then (Ok None,
        tr ++ [Open "combined_output.txt"; LogError (PasswordsError e)])
  else (Raise e, tr ++ [Open "combined_output.txt"]).
Proof.
  intros Hr. unfold main, main_try, bind, open_text. rewrite Hr.
  destruct (is_FileNotFoundError e); [now rewrite <- app_assoc|].
  destruct (is_ValueError e); [now rewrite <- app_assoc | reflexivity].
Qed.

End EntryPointErrors.

Lemma main_read_error_witness :
  main ReingestExamples.fs_denied []
  = (Raise PermissionError, [Open "combined_output.txt"]).
Proof.
  apply (main_read_error ReingestExamples.fs_denied [] PermissionError).
  reflexivity.
Defined.
